(** * DESI tutorial notebooks: the target/redshift join and the redrock
      template reconstruction

    The notebooks of this repository contain two fragments with algorithmic
    content: the [defaultdict] join that matches fibermap targets to rows
    of the redshift table on [TARGETID], and the reconstruction of a
    best-fit redrock template from the [COEFF] column of a zbest table.
    Next to them sits the [check_env] sanity check.  This file embeds the
    three cells and proves what they compute.

    Conventions.  A Python exception is a value of [exn]; a computation
    that may raise returns a [pyresult].  The dictionary [dd] is threaded
    explicitly, since reading [dd[item]] of a [defaultdict] writes to it.
    numpy arithmetic is generic in the element type (class [Dtype]); it is
    instantiated with IEEE binary64 ([float], what the FITS columns hold)
    and with the real numbers. *)

From Stdlib Require Import ZArith List Bool Lia String Ascii Sorted.
From Stdlib Require Import Reals Lra Floats.
From stdpp Require Import gmap strings.
Import ListNotations.

Set Warnings "-inexact-float".
#[local] Open Scope Z_scope.
#[local] Open Scope nat_scope.

(** ** Python results *)

Inductive exn : Type :=
| KeyError
| IndexError
| ValueError
| NameError
| TypeError.

Inductive pyresult (A : Type) : Type :=
| Ok (a : A)
| Raise (e : exn).
Arguments Ok {A} a.
Arguments Raise {A} e.

Definition pyresult_map {A B} (f : A -> B) (r : pyresult A) : pyresult B :=
  match r with
  | Ok a => Ok (f a)
  | Raise e => Raise e
  end.

Definition raises {A} (r : pyresult A) : bool :=
  match r with
  | Ok _ => false
  | Raise _ => true
  end.

(** ** [collections.defaultdict] holding lists of row numbers *)

Module DefaultDict.

(** [default_factory] is [None] for a dictionary that raises [KeyError]
    on a missing key, and the constructor of the default otherwise. *)
Record defaultdict : Type := mk {
  default_factory : option (unit -> list nat);
  data : gmap Z (list nat)
}.

(** The builtin [list], called without arguments. *)
Definition list_ : unit -> list nat := fun _ => [].

(** [defaultdict(list)] *)
Definition new : defaultdict := mk (Some list_) ∅.

(** Statements over one dictionary: the dictionary goes in and comes
    out, unless an exception ends the run. *)
Definition M (A : Type) : Type := defaultdict -> pyresult (A * defaultdict).

Definition ret {A} (a : A) : M A := fun dd => Ok (a, dd).

Definition bind {A B} (m : M A) (k : A -> M B) : M B :=
  fun dd =>
    match m dd with
    | Ok (a, dd') => k a dd'
    | Raise e => Raise e
    end.

Notation "x <~ m ;; k" := (bind m (fun x => k))
  (at level 100, m at next level, right associativity).
Notation "m ;;; k" := (bind m (fun _ => k))
  (at level 100, right associativity).

(** [dd[key]]: [__getitem__], falling back on [__missing__], which
    stores the default under [key] before returning it. *)
Definition getitem (key : Z) : M (list nat) :=
  fun dd =>
    match data dd !! key with
    | Some v => Ok (v, dd)
    | None =>
        match default_factory dd with
        | None => Raise KeyError
        | Some factory =>
            let v := factory tt in
            Ok (v, mk (default_factory dd) (<[key := v]> (data dd)))
        end
    end.

(** [key in dd] *)
Definition contains (key : Z) : M bool :=
  fun dd => Ok (bool_decide (is_Some (data dd !! key)), dd).

(** [dd[key].append(x)]: the list stored under [key] is extended in
    place, so the dictionary sees the new element. *)
Definition append_at (key : Z) (x : nat) : M unit :=
  v <~ getitem key ;;
  fun dd => Ok (tt, mk (default_factory dd) (<[key := v ++ [x]]> (data dd))).

End DefaultDict.

(** ** The join cell

<<
dd = defaultdict(list)
for index, item in enumerate(zs["TARGETID"]):
    dd[item].append(index)
zqsos = [index for item in fm[qsos]["TARGETID"] for index in dd[item] if item in dd]
>>
*)

Module Join.
Import DefaultDict.

(** [enumerate(l, start)] *)
Fixpoint enumerate_from {A} (start : nat) (l : list A) : list (nat * A) :=
  match l with
  | [] => []
  | x :: l' => (start, x) :: enumerate_from (S start) l'
  end.

Definition enumerate {A} (l : list A) : list (nat * A) := enumerate_from 0 l.

(** The [for] loop that fills [dd]. *)
Fixpoint build_loop (rows : list (nat * Z)) : M unit :=
  match rows with
  | [] => ret tt
  | (index, item) :: rows' => append_at item index ;;; build_loop rows'
  end.

(** The inner clause [for index in dd[item] if item in dd], run over
    the list that [dd[item]] returned.  Each step evaluates the
    condition; the trace keeps every [index] with the value the
    condition took for it. *)
Fixpoint inner_loop (item : Z) (indices : list nat) : M (list (nat * bool)) :=
  match indices with
  | [] => ret []
  | index :: indices' =>
      cond <~ contains item ;;
      rest <~ inner_loop item indices' ;;
      ret ((index, cond) :: rest)
  end.

(** The elements a comprehension keeps: those whose condition held. *)
Definition kept (trace : list (nat * bool)) : list nat :=
  map fst (List.filter snd trace).

(** The whole comprehension; [dd[item]] is evaluated once per [item]. *)
Fixpoint comprehension_trace (targets : list Z) : M (list (nat * bool)) :=
  match targets with
  | [] => ret []
  | item :: targets' =>
      indices <~ getitem item ;;
      here <~ inner_loop item indices ;;
      rest <~ comprehension_trace targets' ;;
      ret (here ++ rest)
  end.

Definition comprehension (targets : list Z) : M (list nat) :=
  trace <~ comprehension_trace targets ;; ret (kept trace).

(** The cell, from the two [TARGETID] columns to [zqsos] and the final
    [dd]. *)
Definition cell (zs_TARGETID fm_TARGETID : list Z)
  : pyresult (list nat * defaultdict) :=
  (build_loop (enumerate zs_TARGETID) ;;; comprehension fm_TARGETID) new.

Definition zqsos (zs_TARGETID fm_TARGETID : list Z) : pyresult (list nat) :=
  pyresult_map fst (cell zs_TARGETID fm_TARGETID).

(** The comprehension with the condition taken out:
    [[index for item in targets for index in dd[item]]]. *)
Fixpoint comprehension_unguarded (targets : list Z) : M (list nat) :=
  match targets with
  | [] => ret []
  | item :: targets' =>
      indices <~ getitem item ;;
      rest <~ comprehension_unguarded targets' ;;
      ret (indices ++ rest)
  end.

Definition zqsos_unguarded (zs_TARGETID fm_TARGETID : list Z)
  : pyresult (list nat) :=
  pyresult_map fst
    ((build_loop (enumerate zs_TARGETID) ;;; comprehension_unguarded fm_TARGETID) new).

(** *** Reference: the rows of the fit table that carry a given id *)

(** Positions [i >= start] (counted from [start]) at which [fit] holds
    [target], in increasing order. *)
Fixpoint matches_from (start : nat) (target : Z) (fit : list Z) : list nat :=
  match fit with
  | [] => []
  | x :: fit' =>
      if Z.eqb x target
      then start :: matches_from (S start) target fit'
      else matches_from (S start) target fit'
  end.

Definition matches (target : Z) (fit : list Z) : list nat :=
  matches_from 0 target fit.

(** [d] indexes [fit]: it has the [list] factory and maps every id to
    its rows in [fit] (an id without rows may be absent or map to the
    empty list). *)
Definition indexes (fit : list Z) (d : defaultdict) : Prop :=
  default_factory d = Some list_
  /\ forall key, default [] (data d !! key) = matches key fit.

End Join.

(** ** numpy arithmetic

    [ndarray] operations do not fix the element type; the arrays read
    from the FITS files are [float64]. *)

Class Dtype (T : Type) : Type := {
  zero : T;
  one : T;
  add : T -> T -> T;
  sub : T -> T -> T;
  mul : T -> T -> T;
  less : T -> T -> Prop
}.

(** IEEE 754 binary64, as numpy's [float64]; [a < b] is the comparison
    of the standard, false as soon as one side is NaN. *)
#[export] Instance float64 : Dtype float := {|
  zero := 0%float;
  one := 1%float;
  add := PrimFloat.add;
  sub := PrimFloat.sub;
  mul := PrimFloat.mul;
  less := fun a b => PrimFloat.ltb a b = true
|}.

(** Exact arithmetic on the real numbers. *)
#[export] Instance real : Dtype R := {|
  zero := 0%R;
  one := 1%R;
  add := Rplus;
  sub := Rminus;
  mul := Rmult;
  less := Rlt
|}.

Module Numpy.
Section Ndarray.
Context {T : Type} `{Dtype T}.

(** A two-dimensional array with its [shape]; [item] lists the rows. *)
Record ndarray2 : Type := mk_ndarray2 {
  shape0 : nat;
  shape1 : nat;
  item : list (list T)
}.

(** [a[:, j]] *)
Definition column (j : nat) (a : ndarray2) : list T :=
  map (fun row => nth j row zero) (item a).

(** Inner product of two vectors, accumulated from the left. *)
Definition inner (u v : list T) : T :=
  fold_left (fun acc p => add acc (mul (fst p) (snd p))) (combine u v) zero.

(** The product of [a.T] with a vector known to have [shape0 a]
    entries: one inner product per column of [a]. *)
Definition matvec_T (a : ndarray2) (v : list T) : list T :=
  map (fun j => inner (column j a) v) (seq 0 (shape1 a)).

(** [a.T.dot(v)] for a one-dimensional [v]: the shapes [(shape1,
    shape0)] and [(len(v),)] must be aligned. *)
Definition T_dot (a : ndarray2) (v : list T) : pyresult (list T) :=
  if Nat.eqb (length v) (shape0 a)
  then Ok (matvec_T a v)
  else Raise ValueError.

(** [k * v] for a scalar [k] *)
Definition scalar_times (k : T) (v : list T) : list T := map (mul k) v.

(** [v * s] for a scalar [s] *)
Definition times_scalar (v : list T) (s : T) : list T :=
  map (fun x => mul x s) v.

(** [v[0:n]] *)
Definition slice_to (n : nat) (v : list T) : list T := firstn n v.

End Ndarray.
Arguments ndarray2 T : clear implicits.
End Numpy.

(** ** The reconstruction cells of [RedrockOutputs.ipynb]

<<
i = 1
z = zbest['Z'][i]
targetid = zbest['TARGETID'][i]
spectype = zbest['SPECTYPE'][i].strip()
subtype = zbest['SUBTYPE'][i].strip()
fulltype = (spectype, subtype)
ncoeff = templates[fulltype].flux.shape[0]
coeff = zbest['COEFF'][i][0:ncoeff]
>>
<<
tflux = templates[fulltype].flux.T.dot(coeff)
twave = templates[fulltype].wave * (1+z)
>>
*)

Module Redrock.
Import Numpy.

(** [strip()] of a fixed-width column value: leading and trailing ASCII
    whitespace (space, tab, line feed, vertical tab, form feed, carriage
    return) removed. *)
Definition is_space (c : ascii) : bool :=
  let n := nat_of_ascii c in
  Nat.eqb n 32 || (Nat.leb 9 n && Nat.leb n 13).

Fixpoint lstrip_chars (l : list ascii) : list ascii :=
  match l with
  | c :: l' => if is_space c then lstrip_chars l' else l
  | [] => []
  end.

Definition strip (s : string) : string :=
  string_of_list_ascii
    (rev (lstrip_chars (rev (lstrip_chars (list_ascii_of_string s))))).

Section Cells.
Context {T : Type} `{Dtype T}.

(** A redrock template: the basis, one row per coefficient, over the
    rest-frame wavelength grid [wave]. *)
Record Template : Type := mk_template {
  flux : ndarray2 T;
  wave : list T
}.

(** A row of the zbest table. *)
Record zbest_row : Type := mk_zbest_row {
  zb_TARGETID : Z;
  zb_SPECTYPE : string;
  zb_SUBTYPE : string;
  zb_Z : T;
  zb_COEFF : list T
}.

(** [ncoeff = template.flux.shape[0]] *)
Definition ncoeff_of (t : Template) : nat := shape0 (flux t).

(** [coeff = stored[0:ncoeff]] *)
Definition coeff_of (t : Template) (stored : list T) : list T :=
  slice_to (ncoeff_of t) stored.

(** [tflux = template.flux.T.dot(coeff)] *)
Definition tflux_of (t : Template) (coeff : list T) : pyresult (list T) :=
  T_dot (flux t) coeff.

(** [twave = template.wave * (1+z)] *)
Definition twave_of (t : Template) (z : T) : list T :=
  times_scalar (wave t) (add one z).

(** A grid is strictly increasing. *)
Definition increasing (grid : list T) : Prop := StronglySorted less grid.

(** Both cells for a given template, stored coefficient array and
    redshift: the pair [(tflux, twave)]. *)
Definition reconstruct (t : Template) (stored : list T) (z : T)
  : pyresult (list T * list T) :=
  match tflux_of t (coeff_of t stored) with
  | Ok tflux => Ok (tflux, twave_of t z)
  | Raise e => Raise e
  end.

(** The reconstruction as it would be without the slice: the stored
    array goes to the product as it is. *)
Definition reconstruct_unadjusted (t : Template) (stored : list T) (z : T)
  : pyresult (list T * list T) :=
  match tflux_of t stored with
  | Ok tflux => Ok (tflux, twave_of t z)
  | Raise e => Raise e
  end.

(** *** The cells over the notebook's variables *)

(** The names the two cells read and assign.  [templates] and
    [zbest] are set by earlier cells; the others are unbound until
    assigned. *)
Record Namespace : Type := mk_namespace {
  templates : gmap (string * string) Template;
  zbest : list zbest_row;
  v_i : option nat;
  v_z : option T;
  v_targetid : option Z;
  v_fulltype : option (string * string);
  v_ncoeff : option nat;
  v_coeff : option (list T);
  v_tflux : option (list T);
  v_twave : option (list T)
}.

(** A statement leaves a namespace behind and may end in an
    exception; what was assigned before the exception stays. *)
Definition Stmt : Type := Namespace -> Namespace * option exn.

Definition then_ (s1 s2 : Stmt) : Stmt :=
  fun ns =>
    match s1 ns with
    | (ns', None) => s2 ns'
    | (ns', Some e) => (ns', Some e)
    end.

(** An assignment [name = expr]: [expr] reads the namespace and may
    raise; [store] binds the name. *)
Definition assign {A} (expr : Namespace -> pyresult A)
    (store : A -> Namespace -> Namespace) : Stmt :=
  fun ns =>
    match expr ns with
    | Ok a => (store a ns, None)
    | Raise e => (ns, Some e)
    end.

(** Reading a variable: [NameError] while unbound. *)
Definition name {A} (v : option A) : pyresult A :=
  match v with
  | Some a => Ok a
  | None => Raise NameError
  end.

(** [zbest[col][i]] *)
Definition zbest_at {A} (col : zbest_row -> A) (ns : Namespace) (i : nat)
  : pyresult A :=
  match nth_error (zbest ns) i with
  | Some row => Ok (col row)
  | None => Raise IndexError
  end.

(** [templates[fulltype]] *)
Definition template_at (ns : Namespace) (fulltype : string * string)
  : pyresult Template :=
  match templates ns !! fulltype with
  | Some t => Ok t
  | None => Raise KeyError
  end.

Definition pybind {A B} (r : pyresult A) (k : A -> pyresult B) : pyresult B :=
  match r with
  | Ok a => k a
  | Raise e => Raise e
  end.

Definition set_i a ns := mk_namespace (templates ns) (zbest ns) (Some a)
  (v_z ns) (v_targetid ns) (v_fulltype ns) (v_ncoeff ns) (v_coeff ns)
  (v_tflux ns) (v_twave ns).
Definition set_z a ns := mk_namespace (templates ns) (zbest ns) (v_i ns)
  (Some a) (v_targetid ns) (v_fulltype ns) (v_ncoeff ns) (v_coeff ns)
  (v_tflux ns) (v_twave ns).
Definition set_targetid a ns := mk_namespace (templates ns) (zbest ns)
  (v_i ns) (v_z ns) (Some a) (v_fulltype ns) (v_ncoeff ns) (v_coeff ns)
  (v_tflux ns) (v_twave ns).
Definition set_fulltype a ns := mk_namespace (templates ns) (zbest ns)
  (v_i ns) (v_z ns) (v_targetid ns) (Some a) (v_ncoeff ns) (v_coeff ns)
  (v_tflux ns) (v_twave ns).
Definition set_ncoeff a ns := mk_namespace (templates ns) (zbest ns)
  (v_i ns) (v_z ns) (v_targetid ns) (v_fulltype ns) (Some a) (v_coeff ns)
  (v_tflux ns) (v_twave ns).
Definition set_coeff a ns := mk_namespace (templates ns) (zbest ns)
  (v_i ns) (v_z ns) (v_targetid ns) (v_fulltype ns) (v_ncoeff ns) (Some a)
  (v_tflux ns) (v_twave ns).
Definition set_tflux a ns := mk_namespace (templates ns) (zbest ns)
  (v_i ns) (v_z ns) (v_targetid ns) (v_fulltype ns) (v_ncoeff ns)
  (v_coeff ns) (Some a) (v_twave ns).
Definition set_twave a ns := mk_namespace (templates ns) (zbest ns)
  (v_i ns) (v_z ns) (v_targetid ns) (v_fulltype ns) (v_ncoeff ns)
  (v_coeff ns) (v_tflux ns) (Some a).

(** The first cell.  [spectype] and [subtype] are only used to form
    [fulltype], so the three assignments are one step here. *)
Definition pick_cell : Stmt :=
  then_ (assign (fun _ => Ok 1) set_i)
  (then_ (assign (fun ns => pybind (name (v_i ns)) (zbest_at zb_Z ns)) set_z)
  (then_ (assign (fun ns => pybind (name (v_i ns)) (zbest_at zb_TARGETID ns))
            set_targetid)
  (then_ (assign (fun ns =>
            pybind (name (v_i ns)) (fun i =>
            pybind (zbest_at zb_SPECTYPE ns i) (fun spectype =>
            pybind (zbest_at zb_SUBTYPE ns i) (fun subtype =>
            Ok (strip spectype, strip subtype))))) set_fulltype)
  (then_ (assign (fun ns =>
            pybind (name (v_fulltype ns)) (fun fulltype =>
            pybind (template_at ns fulltype) (fun t =>
            Ok (ncoeff_of t)))) set_ncoeff)
         (assign (fun ns =>
            pybind (name (v_i ns)) (fun i =>
            pybind (zbest_at zb_COEFF ns i) (fun stored =>
            pybind (name (v_ncoeff ns)) (fun ncoeff =>
            Ok (slice_to ncoeff stored))))) set_coeff))))).

(** The second cell. *)
Definition model_cell : Stmt :=
  then_ (assign (fun ns =>
            pybind (name (v_fulltype ns)) (fun fulltype =>
            pybind (template_at ns fulltype) (fun t =>
            pybind (name (v_coeff ns)) (fun coeff =>
            tflux_of t coeff)))) set_tflux)
        (assign (fun ns =>
            pybind (name (v_fulltype ns)) (fun fulltype =>
            pybind (template_at ns fulltype) (fun t =>
            pybind (name (v_z ns)) (fun z =>
            Ok (twave_of t z))))) set_twave).

Definition reconstruction_cells : Stmt := then_ pick_cell model_cell.

(** A statement keeps the tables [templates] and [zbest]. *)
Definition keeps_tables (s : Stmt) : Prop :=
  forall ns, templates (fst (s ns)) = templates ns
             /\ zbest (fst (s ns)) = zbest ns.

End Cells.
Arguments Template T : clear implicits.
Arguments zbest_row T : clear implicits.
Arguments Namespace T : clear implicits.
End Redrock.

(** ** The join cell over the notebook's variables *)

Module JoinCell.
Import DefaultDict.

(** Rows of the redshift table [zs] and of the fibermap [fm], with the
    columns the notebook reads. *)
Record zs_row : Type := mk_zs_row {
  zs_TARGETID : Z;
  zs_SPECTYPE : string;
  zs_SUBTYPE : string;
  zs_Z : float
}.

Record fm_row : Type := mk_fm_row {
  fm_TARGETID : Z;
  fm_CMX_TARGET : Z;
  fm_TARGET_RA : float;
  fm_TARGET_DEC : float
}.

Record Namespace : Type := mk_namespace {
  zs : list zs_row;
  fm : list fm_row;
  qsos : list nat;
  dd : option defaultdict;
  zqsos : option (list nat)
}.

(** [table[rows]] with an index array: a new table, or [IndexError]. *)
Fixpoint take_rows {A} (table : list A) (rows : list nat) : pyresult (list A) :=
  match rows with
  | [] => Ok []
  | r :: rows' =>
      match nth_error table r, take_rows table rows' with
      | Some x, Ok xs => Ok (x :: xs)
      | None, _ => Raise IndexError
      | _, Raise e => Raise e
      end
  end.

Definition set_dd d ns := mk_namespace (zs ns) (fm ns) (qsos ns) (Some d) (zqsos ns).
Definition set_zqsos l ns := mk_namespace (zs ns) (fm ns) (qsos ns) (dd ns) (Some l).

(** Run a statement over [dd] on the dictionary bound to the name. *)
Definition on_dd {A} (m : M A) (ns : Namespace) : pyresult (A * Namespace) :=
  match dd ns with
  | None => Raise NameError
  | Some d =>
      match m d with
      | Ok (a, d') => Ok (a, set_dd d' ns)
      | Raise e => Raise e
      end
  end.

(** The cell: the namespace it leaves, and the exception if one ended
    it. *)
Definition run (ns : Namespace) : Namespace * option exn :=
  let ns1 := set_dd new ns in
  match on_dd (Join.build_loop (Join.enumerate (map zs_TARGETID (zs ns1)))) ns1 with
  | Raise e => (ns1, Some e)
  | Ok (_, ns2) =>
      match take_rows (fm ns2) (qsos ns2) with
      | Raise e => (ns2, Some e)
      | Ok targets =>
          match on_dd (Join.comprehension (map fm_TARGETID targets)) ns2 with
          | Raise e => (ns2, Some e)
          | Ok (out, ns3) => (set_zqsos out ns3, None)
          end
      end
  end.

End JoinCell.

(** ** [check_env]

<<
def check_env():
    for env in ('DESI_SPECTRO_REDUX', 'SPECPROD'):
        if env in os.environ:
            print('${}={}'.format(env, os.getenv(env)))
        else:
            print('Required environment variable {} not set!'.format(env))

    reduxdir = desispec.io.specprod_root()
    if not os.path.exists(reduxdir):
        print("ERROR: {} doesn't exist; check $DESI_SPECTRO_REDUX/$SPECPROD".format(reduxdir))
    else:
        print('OK: {} exists'.format(reduxdir))
>>
*)

Module CheckEnv.
#[local] Open Scope string_scope.

(** [os.environ] *)
Abbreviation environ := (gmap string string).

(** Statements that print: standard output so far goes in, what was
    printed comes out with the result. *)
Definition IO (A : Type) : Type := list string -> list string * pyresult A.

Definition io_ret {A} (a : A) : IO A := fun out => (out, Ok a).

Definition io_bind {A B} (m : IO A) (k : A -> IO B) : IO B :=
  fun out =>
    match m out with
    | (out', Ok a) => k a out'
    | (out', Raise e) => (out', Raise e)
    end.

Definition print (line : string) : IO unit := fun out => ((out ++ [line])%list, Ok tt).

Definition lift {A} (r : pyresult A) : IO A := fun out => (out, r).

Fixpoint for_each {A} (l : list A) (body : A -> IO unit) : IO unit :=
  match l with
  | [] => io_ret tt
  | x :: l' => io_bind (body x) (fun _ => for_each l' body)
  end.

(** [os.getenv(name)] *)
Definition getenv (env : environ) (name : string) : option string := env !! name.

(** [str] of an optional string, as [format] renders it. *)
Definition str (v : option string) : string :=
  match v with
  | Some s => s
  | None => "None"
  end.

Section External.
(** [desispec.io.specprod_root], a function of the [desispec]
    package: it reads the environment and returns the production
    directory, or raises. *)
Variable specprod_root : environ -> pyresult string.

(** [os.path.exists] over the file system of the run. *)
Variable path_exists : string -> bool.

Definition check_env (env : environ) : IO unit :=
  io_bind
    (for_each ["DESI_SPECTRO_REDUX"; "SPECPROD"] (fun name =>
       if bool_decide (is_Some (env !! name))
       then print ("$" ++ name ++ "=" ++ str (getenv env name))
       else print ("Required environment variable " ++ name ++ " not set!")))
    (fun _ =>
  io_bind (lift (specprod_root env)) (fun reduxdir =>
    if negb (path_exists reduxdir)
    then print ("ERROR: " ++ reduxdir
                ++ " doesn't exist; check $DESI_SPECTRO_REDUX/$SPECPROD")
    else print ("OK: " ++ reduxdir ++ " exists"))).

End External.

(** *** A resolver written the way the notebook forms the same path

    The notebook builds paths under the production directory with
    [os.path.join(os.getenv("DESI_SPECTRO_REDUX"), os.getenv("SPECPROD"), ...)]. *)

Definition startswith_slash (s : string) : bool :=
  match s with
  | String c _ => Ascii.eqb c "/"
  | EmptyString => false
  end.

Fixpoint endswith_slash (s : string) : bool :=
  match s with
  | EmptyString => false
  | String c EmptyString => Ascii.eqb c "/"
  | String _ s' => endswith_slash s'
  end.

(** [os.path.join(a, b)] on POSIX; an argument that is [None] is a
    [TypeError]. *)
Definition path_join (a b : option string) : pyresult string :=
  match a, b with
  | Some a, Some b =>
      if startswith_slash b then Ok b
      else if String.eqb a "" || endswith_slash a then Ok (a ++ b)
      else Ok (a ++ "/" ++ b)
  | _, _ => Raise TypeError
  end.

Definition join_getenv (env : environ) : pyresult string :=
  path_join (getenv env "DESI_SPECTRO_REDUX") (getenv env "SPECPROD").

End CheckEnv.

(** ** Sample data *)

Module Samples.
Import Numpy Redrock.
#[local] Open Scope float_scope.

(** One basis vector over one wavelength bin. *)
Definition one_bin : Template float :=
  mk_template (mk_ndarray2 1 1 [[0.1]]) [3727].

(** Two basis vectors over three wavelength bins. *)
Definition two_basis : Template float :=
  mk_template
    (mk_ndarray2 2 3 [[1; 2; 3]; [0.5; 0.25; 0.125]])
    [3600; 3600.5; 3601].

(** A grid of two neighbouring doubles, the first and the second above
    3600: [3600 + 2^-41] and [3600 + 2^-40]. *)
Definition neighbours : Template float :=
  mk_template
    (mk_ndarray2 1 2 [[1; 1]])
    [next_up 3600; next_up (next_up 3600)].

End Samples.

(** ** Index arrays and masks *)

Module NumpyIndex.

(** [np.where(mask)[0]], counted from [start]: the positions at which
    [mask] holds, in increasing order. *)
Fixpoint where_from (start : nat) (mask : list bool) : list nat :=
  match mask with
  | [] => []
  | b :: mask' =>
      if b then start :: where_from (S start) mask'
      else where_from (S start) mask'
  end.

Definition where_ (mask : list bool) : list nat := where_from 0 mask.

(** [a & m] for an integer array and an integer *)
Definition bitand (a : list Z) (m : Z) : list Z := map (fun x => Z.land x m) a.

(** An integer array read as a mask: an entry holds when it is not 0. *)
Definition nonzero (a : list Z) : list bool :=
  map (fun x => negb (Z.eqb x 0)) a.

(** [a == v] *)
Definition equals (a : list Z) (v : Z) : list bool := map (fun x => Z.eqb x v) a.

(** [np.count_nonzero] of an array of row numbers *)
Definition count_nonzero (a : list nat) : nat :=
  length (List.filter (fun i => negb (Nat.eqb i 0)) a).

(** [np.count_nonzero] of a mask *)
Definition count_true (mask : list bool) : nat :=
  length (List.filter (fun b => b) mask).

(** A loop body run over a list of values, stopping at the first
    exception. *)
Fixpoint for_rows {A B} (body : A -> pyresult B) (l : list A) : pyresult (list B) :=
  match l with
  | [] => Ok []
  | x :: l' =>
      match body x with
      | Raise e => Raise e
      | Ok y =>
          match for_rows body l' with
          | Raise e => Raise e
          | Ok ys => Ok (y :: ys)
          end
      end
  end.

(** [a[i]] for a list or a one-dimensional array and [i >= 0] *)
Definition at_ {A} (a : list A) (i : nat) : pyresult A :=
  match nth_error a i with
  | Some x => Ok x
  | None => Raise IndexError
  end.

End NumpyIndex.

(** ** The cells around the join *)

Module Targets.
Import NumpyIndex JoinCell.

(** [qsos = np.where(fm["CMX_TARGET"] & cmx_mask["SV0_QSO"])[0]], and
    likewise [stds] and the cells on [DESI_TARGET] with [desi_mask]:
    [column] is the targeting column and [bits] the value of the mask. *)
Definition select (column : fm_row -> Z) (bits : Z) (fm : list fm_row)
  : list nat :=
  where_ (nonzero (bitand (map column fm) bits)).

Definition select_cell (column : fm_row -> Z) (bits : Z) (ns : Namespace)
  : Namespace :=
  mk_namespace (zs ns) (fm ns) (select column bits (fm ns)) (dd ns) (zqsos ns).

(** [zs[zqsos]["TARGETID"]] *)
Definition matched_ids (zs_TARGETID : list Z) (zqsos : list nat)
  : pyresult (list Z) :=
  take_rows zs_TARGETID zqsos.

(** [len(set(fm['TARGETID'][stds]))] *)
Definition num_standard_stars (fm_TARGETID : list Z) (stds : list nat)
  : pyresult nat :=
  pyresult_map (fun ids => size (list_to_set ids : gset Z))
    (take_rows fm_TARGETID stds).

(** [np.count_nonzero(stds)] *)
Definition num_stdstar_exposures (stds : list nat) : nat := count_nonzero stds.

(** The loop over [set(fm['EXPID'])]: for each exposure, in the order
    [order] in which the set yields them, the number that is printed,
    [np.count_nonzero(fm['EXPID'] == expid)]. *)
Definition targets_per_expid (EXPID : list Z) (order : list Z) : list (Z * nat) :=
  map (fun expid => (expid, count_true (equals EXPID expid))) order.

(** [ispec = np.where(fibermap['TARGETID'] == targetid)[0][0]] *)
Definition ispec (TARGETID : list Z) (targetid : Z) : pyresult nat :=
  at_ (where_ (equals TARGETID targetid)) 0.

(** [zs[zqsos]["SPECTYPE"] == b'QSO'], and the same with the cut
    [zs[zqsos]["Z"] < 5]. *)
Definition is_qso (row : zs_row) : bool := String.eqb (zs_SPECTYPE row) "QSO".

Definition is_qso_below_5 (row : zs_row) : bool :=
  String.eqb (zs_SPECTYPE row) "QSO" && PrimFloat.ltb (zs_Z row) 5.

(** [qsoid = np.where(sel(zs[zqsos]))[0]] *)
Definition qsoid_of (sel : zs_row -> bool) (zs : list zs_row) (zqsos : list nat)
  : pyresult (list nat) :=
  pyresult_map (fun rows => where_ (map sel rows)) (take_rows zs zqsos).

(** One panel of the quasar plots: the row [zs[zqsos[qsoid[i]]]] that
    gives the title and the row [qsos[qsoid[i]]] of the fibermap whose
    spectrum is drawn (the flux arrays have one row per fibermap row). *)
Definition panel (zs : list zs_row) (fm : list fm_row)
    (zqsos qsos qsoid : list nat) (i : nat) : pyresult (zs_row * fm_row) :=
  match at_ qsoid i with
  | Raise e => Raise e
  | Ok k =>
      match at_ zqsos k with
      | Raise e => Raise e
      | Ok zi =>
          match at_ zs zi with
          | Raise e => Raise e
          | Ok zrow =>
              match at_ qsos k with
              | Raise e => Raise e
              | Ok fi =>
                  match at_ fm fi with
                  | Raise e => Raise e
                  | Ok frow => Ok (zrow, frow)
                  end
              end
          end
      end
  end.

(** [for i in range(9): ...] *)
Definition panels_fixed zs fm zqsos qsos qsoid : pyresult (list (zs_row * fm_row)) :=
  for_rows (panel zs fm zqsos qsos qsoid) (seq 0 9).

(** [for i in range(len(qsoid))[0:9]: ...] *)
Definition panels_sliced zs fm zqsos qsos qsoid : pyresult (list (zs_row * fm_row)) :=
  for_rows (panel zs fm zqsos qsos qsoid) (firstn 9 (seq 0 (length qsoid))).

End Targets.

(** ** The dictionary of templates

<<
templates = dict()
for filename in redrock.templates.find_templates():
    t = redrock.templates.Template(filename)
    templates[(t.template_type, t.sub_type)] = t
>>
*)

Module Templates.
Import Redrock.
Section Load.
Context {T : Type}.

(** A template as read from its file, with the type and sub-type it
    declares. *)
Record TemplateFile : Type := mk_template_file {
  template_type : string;
  sub_type : string;
  loaded : Template T
}.

(** The key under which the loop stores a template. *)
Definition key_of (t : TemplateFile) : string * string :=
  (template_type t, sub_type t).

Definition load_templates (files : list TemplateFile)
  : gmap (string * string) (Template T) :=
  fold_left (fun templates t => <[(template_type t, sub_type t) := loaded t]> templates)
    files ∅.

(** The namespace a fresh notebook has once the zbest table is read and
    the templates are loaded. *)
Definition fresh (files : list TemplateFile) (zbest : list (zbest_row T))
  : Namespace T :=
  mk_namespace (load_templates files) zbest None None None None None None None None.

End Load.
Arguments TemplateFile T : clear implicits.
End Templates.

(** ** Paths and file names *)

Module Paths.
Import CheckEnv.
#[local] Open Scope string_scope.

(** [os.path.join(os.getenv("DESI_SPECTRO_REDUX"), os.getenv("SPECPROD"), leaf)] *)
Definition basedir (env : environ) (leaf : string) : pyresult string :=
  match path_join (getenv env "DESI_SPECTRO_REDUX") (getenv env "SPECPROD") with
  | Raise e => Raise e
  | Ok prod => path_join (Some prod) (Some leaf)
  end.

(** [str.replace(old, new)] for a non-empty [old]: occurrences are
    found from the left and do not overlap.  [skip] counts the characters
    of a found occurrence still to pass over. *)
Fixpoint replace_from (old new : string) (skip : nat) (s : string) : string :=
  match s with
  | EmptyString => EmptyString
  | String c s' =>
      match skip with
      | S skip' => replace_from old new skip' s'
      | O =>
          if String.prefix old s
          then new ++ replace_from old new (String.length old - 1) s'
          else String c (replace_from old new 0 s')
      end
  end.

(** With an empty [old], [new] goes before every character and at the
    end. *)
Fixpoint interleave (new s : string) : string :=
  match s with
  | EmptyString => new
  | String c s' => new ++ String c (interleave new s')
  end.

Definition replace (old new s : string) : string :=
  match old with
  | EmptyString => interleave new s
  | _ => replace_from old new 0 s
  end.

(** [s] holds [old] somewhere. *)
Fixpoint contains (old s : string) : bool :=
  String.prefix old s
  || match s with
     | EmptyString => false
     | String _ s' => contains old s'
     end.

(** ["coadd-{}-{}-{}.fits".format(spectrograph, tile, date)] *)
Definition coadd_name (spectrograph tile date : string) : string :=
  "coadd-" ++ spectrograph ++ "-" ++ tile ++ "-" ++ date ++ ".fits".

(** [zfilename = specfilename.replace('coadd', 'zbest')] *)
Definition zfilename (specfilename : string) : string :=
  replace "coadd" "zbest" specfilename.

(** [zfilename = specfilename.replace('spectra-64-', 'zbest-64-')], for
    the files grouped by HEALPix pixel. *)
Definition zfilename_healpix (specfilename : string) : string :=
  replace "spectra-64-" "zbest-64-" specfilename.

End Paths.

(** ** Sample tables *)

Module SampleTables.
Import JoinCell.
#[local] Open Scope Z_scope.

(** Three fitted targets; the mask bit 4 marks the quasar targets of the
    fibermap, rows 0 and 2. *)
Definition zs3 : list zs_row :=
  [mk_zs_row 11 "QSO" "" 2.1%float;
   mk_zs_row 12 "GALAXY" "" 0.3%float;
   mk_zs_row 13 "QSO" "" 1.5%float].

Definition fm3 : list fm_row :=
  [mk_fm_row 13 4 150.1%float 2.2%float;
   mk_fm_row 12 1 150.2%float 2.3%float;
   mk_fm_row 11 6 150.3%float 2.4%float].

End SampleTables.

(** ** Sample zbest table and template files *)

Module SampleFits.
Import Redrock Templates.
#[local] Open Scope float_scope.

(** Two files declare the type [GALAXY] with an empty sub-type; the
    second one is [Samples.two_basis]. *)
Definition files : list (TemplateFile float) :=
  [mk_template_file "GALAXY" "" Samples.one_bin;
   mk_template_file "QSO" "" Samples.neighbours;
   mk_template_file "GALAXY" "" Samples.two_basis].

(** Row 1 is a galaxy; its type is padded to the width of the column and
    its coefficient array is padded with zeros. *)
Definition zbest2 : list (zbest_row float) :=
  [mk_zbest_row 39627 "QSO   " "" 2.5 [1; 0; 0; 0];
   mk_zbest_row 39628 "GALAXY" "      " 0.5 [1; 2; 0; 0]].

End SampleFits.

(** * Proofs *)

(** ** The join *)

Section JoinFacts.
Import DefaultDict Join.

(** *** The reference function *)

Lemma matches_from_ge start target fit i :
  In i (matches_from start target fit) -> start <= i.
Proof.
  revert start. induction fit as [|x fit IH]; intros start; cbn; [tauto|].
  destruct (Z.eqb x target); cbn; [intros [<-|Hi]|intros Hi];
    try lia; apply IH in Hi; lia.
Qed.

Lemma matches_from_In start target fit i :
  In i (matches_from start target fit)
  <-> start <= i /\ nth_error fit (i - start) = Some target.
Proof.
  revert start. induction fit as [|x fit IH]; intros start; cbn.
  - split; [tauto|]. intros [_ Hn]. destruct (i - start); discriminate.
  - destruct (Z.eqb_spec x target) as [->|Hne]; cbn; rewrite ?IH.
    + split.
      * intros [<-|[Hle Hn]]; [rewrite Nat.sub_diag; auto|].
        split; [lia|]. replace (i - start) with (S (i - S start)) by lia.
        exact Hn.
      * intros [Hle Hn]. destruct (Nat.eq_dec start i) as [|Hd]; [auto|].
        right. split; [lia|].
        replace (i - start) with (S (i - S start)) in Hn by lia. exact Hn.
    + split.
      * intros [Hle Hn]. split; [lia|].
        replace (i - start) with (S (i - S start)) by lia. exact Hn.
      * intros [Hle Hn]. destruct (i - start) as [|j] eqn:Hj; cbn in Hn.
        -- congruence.
        -- split; [lia|]. replace (i - S start) with j by lia. exact Hn.
Qed.

Lemma matches_from_sorted start target fit :
  StronglySorted lt (matches_from start target fit).
Proof.
  revert start. induction fit as [|x fit IH]; intros start; cbn.
  - constructor.
  - destruct (Z.eqb x target); [|apply IH].
    constructor; [apply IH|]. apply List.Forall_forall. intros i Hi.
    apply matches_from_ge in Hi. lia.
Qed.

Lemma matches_absent target fit :
  ~ In target fit -> matches target fit = [].
Proof.
  unfold matches. generalize 0.
  induction fit as [|x fit IH]; intros start Hnot; cbn; [reflexivity|].
  destruct (Z.eqb_spec x target) as [->|_].
  - exfalso. apply Hnot. now left.
  - apply IH. intros Hin. apply Hnot. now right.
Qed.

(** *** The loop that fills [dd] *)

Lemma append_at_data key x d :
  default_factory d = Some list_ ->
  append_at key x d
  = Ok (tt, mk (Some list_) (<[key := default [] (data d !! key) ++ [x]]> (data d))).
Proof.
  intros Hf. unfold append_at, bind, getitem. destruct d as [f m]; cbn in *.
  subst f. destruct (m !! key) as [v|] eqn:Hk; cbn.
  - reflexivity.
  - now rewrite insert_insert_eq.
Qed.

Lemma build_loop_data fit :
  forall start d,
    default_factory d = Some list_ ->
    exists d',
      build_loop (enumerate_from start fit) d = Ok (tt, d')
      /\ default_factory d' = Some list_
      /\ forall key,
           data d' !! key
           = match matches_from start key fit with
             | [] => data d !! key
             | ps => Some (default [] (data d !! key) ++ ps)
             end.
Proof.
  induction fit as [|x fit IH]; intros start d Hf; cbn.
  - exists d. repeat split; auto.
  - unfold bind. rewrite append_at_data by exact Hf.
    destruct (IH (S start) (mk (Some list_)
                (<[x := default [] (data d !! x) ++ [start]]> (data d))) eq_refl)
      as (d' & Hrun & Hf' & Hdata).
    exists d'. split; [exact Hrun|]. split; [exact Hf'|].
    intros key. rewrite Hdata. cbn [data].
    destruct (Z.eqb_spec x key) as [->|Hne].
    + rewrite lookup_insert_eq. cbn [default].
      destruct (matches_from (S start) key fit); cbn.
      * reflexivity.
      * now rewrite <- app_assoc.
    + now rewrite lookup_insert_ne.
Qed.

Lemma build_loop_indexes fit :
  exists d, build_loop (enumerate fit) new = Ok (tt, d) /\ indexes fit d.
Proof.
  destruct (build_loop_data fit 0 new eq_refl) as (d & Hrun & Hf & Hdata).
  exists d. split; [exact Hrun|]. split; [exact Hf|].
  intros key. rewrite Hdata. unfold matches. cbn.
  rewrite lookup_empty. now destruct (matches_from 0 key fit).
Qed.

(** *** The comprehension *)

Lemma getitem_indexes fit key d :
  indexes fit d ->
  exists d',
    getitem key d = Ok (matches key fit, d')
    /\ indexes fit d' /\ is_Some (data d' !! key).
Proof.
  intros [Hf Hd]. unfold getitem. pose proof (Hd key) as Hkey.
  destruct (data d !! key) as [v|] eqn:Hk; cbn in Hkey.
  - exists d. subst v. split; [reflexivity|]. split; [now split|].
    rewrite Hk. eauto.
  - rewrite Hf. exists (mk (Some list_) (<[key := list_ tt]> (data d))).
    rewrite <- Hkey. split; [reflexivity|]. split; [split; [reflexivity|]|].
    + intros k. cbn. destruct (decide (key = k)) as [->|Hne].
      * rewrite lookup_insert_eq. cbn. rewrite <- Hd, Hk. reflexivity.
      * rewrite lookup_insert_ne by exact Hne. apply Hd.
    + cbn. rewrite lookup_insert_eq. eauto.
Qed.

Lemma getitem_then_contains key d v d' :
  getitem key d = Ok (v, d') -> contains key d' = Ok (true, d').
Proof.
  unfold getitem, contains. intros Hg.
  destruct (data d !! key) as [w|] eqn:Hk.
  - injection Hg as <- <-. rewrite Hk. rewrite bool_decide_eq_true_2; eauto.
  - destruct (default_factory d); [|discriminate].
    injection Hg as <- <-. cbn. rewrite lookup_insert_eq.
    rewrite bool_decide_eq_true_2; eauto.
Qed.

Lemma inner_loop_present item indices d :
  contains item d = Ok (true, d) ->
  inner_loop item indices d = Ok (map (fun index => (index, true)) indices, d).
Proof.
  intros Hc. induction indices as [|index indices IH]; cbn [inner_loop map];
    [reflexivity|].
  unfold bind. rewrite Hc, IH. reflexivity.
Qed.

Lemma kept_all_true indices :
  kept (map (fun index => (index, true)) indices) = indices.
Proof.
  unfold kept. induction indices as [|i l IH]; cbn; [reflexivity|].
  now f_equal.
Qed.

Lemma comprehension_trace_indexes fit targets :
  forall d,
    indexes fit d ->
    exists d',
      comprehension_trace targets d
      = Ok (map (fun index => (index, true))
              (flat_map (fun item => matches item fit) targets), d')
      /\ indexes fit d'.
Proof.
  induction targets as [|item targets IH]; intros d Hd;
    cbn [comprehension_trace flat_map].
  - exists d. split; [reflexivity|exact Hd].
  - destruct (getitem_indexes fit item d Hd) as (d1 & Hg & Hd1 & _).
    destruct (IH d1 Hd1) as (d2 & Hrest & Hd2).
    exists d2. split; [|exact Hd2].
    unfold bind. rewrite Hg.
    rewrite (inner_loop_present item _ d1 (getitem_then_contains _ _ _ _ Hg)).
    rewrite Hrest. unfold ret. now rewrite map_app.
Qed.

Lemma comprehension_unguarded_indexes fit targets :
  forall d,
    indexes fit d ->
    exists d',
      comprehension_unguarded targets d
      = Ok (flat_map (fun item => matches item fit) targets, d')
      /\ indexes fit d'.
Proof.
  induction targets as [|item targets IH]; intros d Hd;
    cbn [comprehension_unguarded flat_map].
  - exists d. split; [reflexivity|exact Hd].
  - destruct (getitem_indexes fit item d Hd) as (d1 & Hg & Hd1 & _).
    destruct (IH d1 Hd1) as (d2 & Hrest & Hd2).
    exists d2. split; [|exact Hd2].
    unfold bind. rewrite Hg, Hrest. reflexivity.
Qed.

Lemma comprehension_indexes fit targets d :
  indexes fit d ->
  exists d',
    comprehension targets d
    = Ok (flat_map (fun item => matches item fit) targets, d')
    /\ indexes fit d'.
Proof.
  intros Hd. unfold comprehension, bind.
  destruct (comprehension_trace_indexes fit targets d Hd) as (d' & -> & Hd').
  exists d'. unfold ret. now rewrite kept_all_true.
Qed.

Lemma zqsos_eq fit targets :
  zqsos fit targets = Ok (flat_map (fun item => matches item fit) targets).
Proof.
  unfold zqsos, cell, bind.
  destruct (build_loop_indexes fit) as (d & -> & Hd).
  now destruct (comprehension_indexes fit targets d Hd) as (d' & -> & _).
Qed.

Lemma zqsos_unguarded_eq fit targets :
  zqsos_unguarded fit targets
  = Ok (flat_map (fun item => matches item fit) targets).
Proof.
  unfold zqsos_unguarded, bind.
  destruct (build_loop_indexes fit) as (d & -> & Hd).
  destruct (comprehension_unguarded_indexes fit targets d Hd) as (d' & -> & _).
  reflexivity.
Qed.

End JoinFacts.

Section JoinClaims.
Import DefaultDict Join.
#[local] Open Scope Z_scope.

(** C1.  For all [TARGETID] columns of the fit table and of the
    targets, the join returns, target by target in the targets' order,
    the rows of the fit table that carry the target's id, in increasing
    row order, concatenated into one list.  [matches target fit] is
    exactly the set of rows [i] with [fit[i] = target], strictly
    increasing.  On targets [5,7,5] against fit ids [7,5,5,9] the rows
    are [1,2] for 5 and [0] for 7, so the result is [1,2,0,1,2]. *)
Theorem join_returns_matching_rows (fit targets : list Z) :
  zqsos fit targets = Ok (flat_map (fun item => matches item fit) targets)
  /\ (forall target,
        StronglySorted lt (matches target fit)
        /\ forall i, In i (matches target fit) <-> nth_error fit i = Some target)
  /\ (matches 5 [7; 5; 5; 9] = [1; 2]%nat
      /\ matches 7 [7; 5; 5; 9] = [0]%nat
      /\ zqsos [7; 5; 5; 9] [5; 7; 5] = Ok [1; 2; 0; 1; 2]%nat).
Proof.
  split; [apply zqsos_eq|]. split.
  - intros target. split; [apply matches_from_sorted|].
    intros i. unfold matches. rewrite matches_from_In, Nat.sub_0_r.
    split; [tauto|]. split; [lia|assumption].
  - repeat split; reflexivity.
Qed.

(** C2.  A target whose id occurs nowhere in the fit column adds
    nothing to the result: the join over the targets with it equals the
    join over the targets without it, its own list of rows is empty,
    and the run ends without an exception. *)
Theorem unmatched_target_is_dropped (fit before after : list Z) (item : Z) :
  ~ In item fit ->
  matches item fit = []
  /\ zqsos fit (before ++ item :: after) = zqsos fit (before ++ after)
  /\ raises (zqsos fit (before ++ item :: after)) = false.
Proof.
  intros Habsent. pose proof (matches_absent item fit Habsent) as Hnone.
  split; [exact Hnone|]. rewrite !zqsos_eq. split; [|reflexivity].
  f_equal. rewrite !flat_map_app. cbn [flat_map]. now rewrite Hnone.
Qed.

Lemma unmatched_target_is_dropped_witness :
  matches 8 [7; 5; 5; 9] = []
  /\ zqsos [7; 5; 5; 9] ([5] ++ 8 :: [7]) = zqsos [7; 5; 5; 9] ([5] ++ [7])
  /\ raises (zqsos [7; 5; 5; 9] ([5] ++ 8 :: [7])) = false.
Proof.
  apply (unmatched_target_is_dropped [7; 5; 5; 9] [5] [7] 8).
  cbn. intros [H|[H|[H|[H|[]]]]]; discriminate H.
Defined.

(** C9.  Every evaluation of the condition [item in dd] in the
    comprehension yields [True]: reading [dd[item]] leaves [item] in
    [dd] (a missing id is stored with the empty list first), so the
    trace of the comprehension carries [true] throughout, and the cell
    returns what the same cell without the condition returns. *)
Theorem guard_is_always_true (fit targets : list Z) :
  (forall key d v d',
      getitem key d = Ok (v, d') -> contains key d' = Ok (true, d'))
  /\ (exists trace d',
        (build_loop (enumerate fit) ;;; comprehension_trace targets) new
        = Ok (trace, d')
        /\ Forall (fun step => snd step = true) trace)
  /\ zqsos fit targets = zqsos_unguarded fit targets.
Proof.
  split; [exact getitem_then_contains|]. split.
  - unfold bind. destruct (build_loop_indexes fit) as (d & -> & Hd).
    destruct (comprehension_trace_indexes fit targets d Hd) as (d' & -> & _).
    eexists _, d'. split; [reflexivity|].
    apply List.Forall_forall. intros step Hin.
    apply in_map_iff in Hin as (i & <- & _). reflexivity.
  - now rewrite zqsos_eq, zqsos_unguarded_eq.
Qed.

(** Without a default factory the same lookup raises: the silence of
    the join on an unmatched id comes from [defaultdict(list)]. *)
Lemma getitem_without_factory key m :
  m !! key = None -> getitem key (mk None m) = Raise KeyError.
Proof. intros Hk. unfold getitem. cbn. now rewrite Hk. Qed.

(** The one trace an unmatched id leaves: [dd] holds it afterwards,
    with the empty list. *)
Lemma unmatched_target_is_stored :
  exists d, cell [7; 5; 5; 9] [8] = Ok ([], d) /\ data d !! 8 = Some [].
Proof. eexists. split; [vm_compute; reflexivity|]. vm_compute. reflexivity. Qed.

End JoinClaims.

(** ** binary64 arithmetic *)

Section Float64Facts.

Lemma digits2_shift52 (m : positive) :
  Z.pos (digits2_pos (4503599627370496 * m)) = (Z.pos (digits2_pos m) + 52)%Z.
Proof. cbv [Pos.mul]. cbn [digits2_pos]. rewrite !Pos2Z.inj_succ. lia. Qed.

Lemma shr_52 (m : positive) :
  SpecFloat.iter_pos shr_1 52
    {| shr_m := Z.pos (4503599627370496 * m); shr_r := false; shr_s := false |}
  = {| shr_m := Z.pos m; shr_r := false; shr_s := false |}.
Proof. reflexivity. Qed.

(** Multiplying by 1.0 (mantissa [2^52], exponent [-52]) rounds to the
    operand, whatever it is: zero, subnormal, normal, infinite, NaN. *)
Lemma SF64mul_one_r (x : spec_float) :
  valid_binary x = true -> SF64mul x (Prim2SF 1) = x.
Proof.
  change (Prim2SF 1) with (S754_finite false 4503599627370496 (-52)).
  destruct x as [s|s| |s m e]; cbn [SF64mul SFmul valid_binary];
    rewrite ?xorb_false_r; try reflexivity.
  intros Hb. unfold bounded in Hb. apply andb_prop in Hb as [Hc He].
  unfold canonical_mantissa in Hc. apply Z.eqb_eq in Hc.
  unfold binary_round_aux, shr_fexp. rewrite Pos.mul_comm.
  cbn [Zdigits2]. rewrite digits2_shift52.
  replace (Z.pos (digits2_pos m) + 52 + (e + -52))%Z
    with (Z.pos (digits2_pos m) + e)%Z by lia.
  rewrite Hc. replace (e - (e + -52))%Z with 52%Z by lia.
  cbn [shr shr_record_of_loc]. rewrite shr_52.
  cbn [shr_m loc_of_shr_record round_nearest_even Zdigits2].
  replace (e + -52 + 52)%Z with e by lia.
  rewrite Hc, Z.sub_diag. cbn [shr shr_m]. rewrite He. reflexivity.
Qed.

Lemma float_mul_one_r (x : float) : (x * 1)%float = x.
Proof.
  apply Prim2SF_inj. rewrite mul_spec. apply SF64mul_one_r, Prim2SF_valid.
Qed.

(** [z == 0] holds for [0.0] and [-0.0] only, and [1 + z] is [1.0] for
    both. *)
Lemma float_one_plus_zero (z : float) :
  (z =? 0)%float = true -> (1 + z)%float = 1%float.
Proof.
  intros Hz. rewrite FloatAxioms.eqb_spec in Hz.
  rewrite <- (SF2Prim_Prim2SF z).
  change (Prim2SF 0) with (S754_zero false) in Hz.
  destruct (Prim2SF z) as [[|]|s| |s m e]; try reflexivity.
  - destruct s; discriminate Hz.
  - discriminate Hz.
  - destruct s; discriminate Hz.
Qed.

End Float64Facts.

(** ** The reconstruction *)

Section ReconstructionFacts.
Import Numpy Redrock.

(** *** Any element type *)

Section AnyDtype.
Context {T : Type} `{Dtype T}.

Lemma slice_to_length (n : nat) (v : list T) :
  length (slice_to n v) = Nat.min n (length v).
Proof. apply length_firstn. Qed.

Lemma reconstruct_cases (t : Template T) (stored : list T) (z : T) :
  reconstruct t stored z
  = if Nat.ltb (length stored) (ncoeff_of t)
    then Raise ValueError
    else Ok (matvec_T (flux t) (slice_to (ncoeff_of t) stored), twave_of t z).
Proof.
  unfold reconstruct, tflux_of, coeff_of, T_dot. rewrite slice_to_length.
  fold (ncoeff_of t).
  destruct (Nat.ltb_spec (length stored) (ncoeff_of t)) as [Hlt|Hge].
  - replace (Nat.eqb _ _) with false; [reflexivity|].
    symmetry. apply Nat.eqb_neq. lia.
  - replace (Nat.eqb _ _) with true; [reflexivity|].
    symmetry. apply Nat.eqb_eq. lia.
Qed.

Lemma reconstruct_unadjusted_cases (t : Template T) (stored : list T) (z : T) :
  reconstruct_unadjusted t stored z
  = if Nat.eqb (length stored) (ncoeff_of t)
    then Ok (matvec_T (flux t) stored, twave_of t z)
    else Raise ValueError.
Proof.
  unfold reconstruct_unadjusted, tflux_of, T_dot. fold (ncoeff_of t).
  now destruct (Nat.eqb _ _).
Qed.

Lemma slice_to_agree (n : nat) (u v : list T) :
  (forall i, i < n -> nth_error u i = nth_error v i) ->
  slice_to n u = slice_to n v.
Proof.
  unfold slice_to. revert u v.
  induction n as [|n IH]; intros u v Hagree; [reflexivity|].
  pose proof (Hagree 0 ltac:(lia)) as H0.
  destruct u as [|a u], v as [|b v]; cbn in H0; try discriminate;
    [reflexivity|].
  injection H0 as ->. cbn. f_equal. apply IH.
  intros i Hi. apply (Hagree (S i)). lia.
Qed.

Lemma twave_of_nth (t : Template T) (z : T) (i : nat) :
  nth_error (twave_of t z) i
  = option_map (fun w => mul w (add one z)) (nth_error (wave t) i).
Proof. unfold twave_of, times_scalar. apply nth_error_map. Qed.

End AnyDtype.

(** *** Exact arithmetic *)

Section Exact.
#[local] Open Scope R_scope.

Lemma inner_scaled (k : R) (u v : list R) :
  inner u (scalar_times k v) = k * inner u v.
Proof.
  unfold inner, scalar_times.
  assert (Hgen : forall acc,
    fold_left (fun a (p : R * R) => add a (mul (fst p) (snd p)))
      (combine u (map (mul k) v)) (k * acc)
    = k * fold_left (fun a (p : R * R) => add a (mul (fst p) (snd p)))
            (combine u v) acc).
  { revert v. induction u as [|x u IH]; intros v acc; [reflexivity|].
    destruct v as [|y v]; [reflexivity|]. cbn [map combine fold_left fst snd].
    rewrite <- IH. f_equal. cbn. ring. }
  specialize (Hgen 0). cbn [zero real] in *.
  rewrite <- Hgen. f_equal. ring.
Qed.

Lemma matvec_T_scaled (a : ndarray2 R) (k : R) (v : list R) :
  matvec_T a (scalar_times k v) = scalar_times k (matvec_T a v).
Proof.
  unfold matvec_T. unfold scalar_times at 2. rewrite map_map.
  apply map_ext. intros j. apply inner_scaled.
Qed.

Lemma times_scalar_increasing (grid : list R) (s : R) :
  0 < s -> increasing grid -> increasing (times_scalar grid s).
Proof.
  intros Hs. unfold increasing, times_scalar.
  induction 1 as [|w grid Hsorted IH Hall]; cbn [map]; constructor.
  - exact IH.
  - apply List.Forall_forall. intros y Hy.
    apply in_map_iff in Hy as (x & <- & Hx).
    rewrite List.Forall_forall in Hall. specialize (Hall x Hx).
    cbn in *. now apply Rmult_lt_compat_r.
Qed.

Lemma times_scalar_one (grid : list R) : times_scalar grid 1 = grid.
Proof.
  unfold times_scalar. induction grid as [|w grid IH]; cbn [map];
    [reflexivity|].
  rewrite IH. f_equal. cbn. ring.
Qed.

End Exact.

(** *** binary64 *)

Example strip_padded : strip "GALAXY   " = "GALAXY"%string.
Proof. reflexivity. Qed.

Lemma times_scalar_float_one (grid : list float) :
  times_scalar grid 1%float = grid.
Proof.
  unfold times_scalar. induction grid as [|w grid IH]; cbn [map];
    [reflexivity|].
  rewrite IH. f_equal. apply float_mul_one_r.
Qed.

End ReconstructionFacts.

Section ReconstructionClaims.
Import Numpy Redrock.






(** C5 (amended).  The slice [[0:ncoeff]] is the only adjustment.  A
    stored array with fewer than [ncoeff] entries stays short and the
    product raises numpy's [ValueError], which nothing catches; a stored
    array with [ncoeff] entries or more is cut to its first [ncoeff]
    entries and the reconstruction succeeds.  Without the slice the
    product would raise for every count other than [ncoeff]. *)
Theorem coefficient_count_mismatch
    {T : Type} `{Dtype T} (t : Template T) (stored : list T) (z : T) :
  reconstruct t stored z
  = (if Nat.ltb (length stored) (ncoeff_of t)
     then Raise ValueError
     else Ok (matvec_T (flux t) (slice_to (ncoeff_of t) stored), twave_of t z))
  /\ reconstruct_unadjusted t stored z
     = (if Nat.eqb (length stored) (ncoeff_of t)
        then Ok (matvec_T (flux t) stored, twave_of t z)
        else Raise ValueError).
Proof.
  split; [apply reconstruct_cases|apply reconstruct_unadjusted_cases].
Qed.

(** C5, as stated, fails for an excess: three stored coefficients over
    a basis of two are cut to two and the reconstruction returns, where
    the product with the stored array as supplied raises [ValueError]. *)
Lemma excess_coefficients_are_adjusted :
  raises (reconstruct Samples.two_basis [1; 2; 3]%float 0.5%float) = false
  /\ reconstruct_unadjusted Samples.two_basis [1; 2; 3]%float 0.5%float
     = Raise ValueError
  /\ coeff_of Samples.two_basis [1; 2; 3]%float = [1; 2]%float.
Proof. repeat split; vm_compute; reflexivity. Qed.

(** C10.  The reconstruction reads the stored coefficient array through
    [stored[0:ncoeff]] only: two stored arrays with at least [ncoeff]
    entries that agree on their first [ncoeff] entries give the same
    model flux (and grid), and the reconstruction returns for both. *)
Theorem flux_depends_on_first_ncoeff_only
    {T : Type} `{Dtype T} (t : Template T) (stored1 stored2 : list T) (z : T) :
  ncoeff_of t <= length stored1 ->
  ncoeff_of t <= length stored2 ->
  (forall i, i < ncoeff_of t -> nth_error stored1 i = nth_error stored2 i) ->
  reconstruct t stored1 z = reconstruct t stored2 z
  /\ raises (reconstruct t stored1 z) = false.
Proof.
  intros Hlen1 Hlen2 Hagree. rewrite !reconstruct_cases.
  rewrite (slice_to_agree _ _ _ Hagree).
  destruct (Nat.ltb_spec (length stored1) (ncoeff_of t)); [lia|].
  destruct (Nat.ltb_spec (length stored2) (ncoeff_of t)); [lia|].
  split; reflexivity.
Qed.

Lemma flux_depends_on_first_ncoeff_only_witness :
  reconstruct Samples.two_basis [1; 2; 3]%float 0.5%float
  = reconstruct Samples.two_basis [1; 2; 7; 9]%float 0.5%float
  /\ raises (reconstruct Samples.two_basis [1; 2; 3]%float 0.5%float) = false.
Proof.
  apply (flux_depends_on_first_ncoeff_only
           Samples.two_basis [1; 2; 3]%float [1; 2; 7; 9]%float 0.5%float).
  - cbn. lia.
  - cbn. lia.
  - intros [|[|i]] Hi; [reflexivity|reflexivity|cbn in Hi; lia].
Defined.

End ReconstructionClaims.

(** ** [check_env] *)

Section CheckEnvFacts.
Import CheckEnv.
#[local] Open Scope string_scope.

Lemma for_each_print {A} (l : list A) (line : A -> string) (out : list string) :
  for_each l (fun x => print (line x)) out = ((out ++ map line l)%list, Ok tt).
Proof.
  revert out. induction l as [|x l IH]; intros out; cbn [for_each map].
  - unfold io_ret. now rewrite app_nil_r.
  - unfold io_bind, print at 1. rewrite IH. now rewrite <- app_assoc.
Qed.



(** With both variables set the same resolver returns and [check_env]
    reports on the directory. *)
Lemma check_env_returns_when_set :
  check_env join_getenv (fun _ => false)
    (<[ "SPECPROD" := "daily" ]> {[ "DESI_SPECTRO_REDUX" := "/redux" ]}) []
  = (["$DESI_SPECTRO_REDUX=/redux"; "$SPECPROD=daily";
      "ERROR: /redux/daily doesn't exist; check $DESI_SPECTRO_REDUX/$SPECPROD"],
     Ok tt).
Proof. vm_compute. reflexivity. Qed.

End CheckEnvFacts.

(** ** What the cells leave untouched *)

Section FrameFacts.

Lemma on_dd_frame {A} (m : DefaultDict.M A) (ns ns' : JoinCell.Namespace) (a : A) :
  JoinCell.on_dd m ns = Ok (a, ns') ->
  JoinCell.zs ns' = JoinCell.zs ns
  /\ JoinCell.fm ns' = JoinCell.fm ns
  /\ JoinCell.qsos ns' = JoinCell.qsos ns.
Proof.
  unfold JoinCell.on_dd. destruct (JoinCell.dd ns) as [d|]; [|discriminate].
  destruct (m d) as [[a' d']|e]; [|discriminate].
  intros Heq. injection Heq as _ <-. auto.
Qed.

Lemma join_cell_frame (ns : JoinCell.Namespace) :
  JoinCell.zs (fst (JoinCell.run ns)) = JoinCell.zs ns
  /\ JoinCell.fm (fst (JoinCell.run ns)) = JoinCell.fm ns
  /\ JoinCell.qsos (fst (JoinCell.run ns)) = JoinCell.qsos ns.
Proof.
  unfold JoinCell.run.
  destruct (JoinCell.on_dd _ (JoinCell.set_dd DefaultDict.new ns))
    as [[u ns2]|e] eqn:Hbuild; [|cbn; auto].
  apply on_dd_frame in Hbuild as (Hzs & Hfm & Hq). cbn in Hzs, Hfm, Hq.
  destruct (JoinCell.take_rows _ _) as [targets|e]; [|cbn; auto].
  destruct (JoinCell.on_dd _ ns2) as [[out ns3]|e] eqn:Hcomp; [|cbn; auto].
  apply on_dd_frame in Hcomp as (Hzs' & Hfm' & Hq'). cbn.
  rewrite Hzs', Hfm', Hq'. auto.
Qed.

Section Reconstruction.
Import Redrock.
Context {T : Type} `{Dtype T}.

Lemma then_keeps_tables (s1 s2 : Stmt (T:=T)) :
  keeps_tables s1 -> keeps_tables s2 -> keeps_tables (then_ s1 s2).
Proof.
  intros H1 H2 ns. unfold then_. specialize (H1 ns).
  destruct (s1 ns) as [ns' [e|]]; cbn in *; [exact H1|].
  destruct (H2 ns') as [Ht Hz]. destruct H1 as [Ht1 Hz1].
  rewrite Ht, Hz. auto.
Qed.

Lemma assign_keeps_tables {A} (expr : Namespace T -> pyresult A)
    (store : A -> Namespace T -> Namespace T) :
  (forall a ns, templates (store a ns) = templates ns
                /\ zbest (store a ns) = zbest ns) ->
  keeps_tables (assign expr store).
Proof.
  intros Hstore ns. unfold assign. destruct (expr ns); cbn; auto.
Qed.

Lemma reconstruction_cells_keep_tables :
  keeps_tables (T:=T) reconstruction_cells.
Proof.
  unfold reconstruction_cells, pick_cell, model_cell.
  repeat apply then_keeps_tables; apply assign_keeps_tables; intros; cbn; auto.
Qed.

End Reconstruction.

(** The cells compute [reconstruct] on row 1 of [zbest] and the template
    of its stripped type: they bind [tflux] and [twave] to its result, or
    end in its exception. *)
Lemma reconstruction_cells_run
    {T : Type} `{Dtype T} (ns : Redrock.Namespace T)
    (row : Redrock.zbest_row T) (t : Redrock.Template T) :
  nth_error (Redrock.zbest ns) 1 = Some row ->
  Redrock.templates ns
    !! (Redrock.strip (Redrock.zb_SPECTYPE row),
        Redrock.strip (Redrock.zb_SUBTYPE row)) = Some t ->
  match Redrock.reconstruct t (Redrock.zb_COEFF row) (Redrock.zb_Z row) with
  | Ok (tflux, twave) =>
      Redrock.v_tflux (fst (Redrock.reconstruction_cells ns)) = Some tflux
      /\ Redrock.v_twave (fst (Redrock.reconstruction_cells ns)) = Some twave
      /\ snd (Redrock.reconstruction_cells ns) = None
  | Raise e => snd (Redrock.reconstruction_cells ns) = Some e
  end.
Proof.
  intros Hrow Ht.
  destruct ns as [tpl zb i z tid ft nc co tf tw]. cbn in Hrow, Ht.
  destruct zb as [|row0 [|row1 zb]]; try discriminate Hrow.
  injection Hrow as ->.
  unfold Redrock.reconstruct, Redrock.coeff_of, Redrock.reconstruction_cells,
    Redrock.pick_cell, Redrock.model_cell, Redrock.then_, Redrock.assign,
    Redrock.zbest_at, Redrock.template_at, Redrock.pybind, Redrock.name.
  cbn. rewrite Ht. cbn. rewrite Ht. cbn.
  destruct (Redrock.tflux_of t _) as [tflux|e]; cbn; [|reflexivity].
  rewrite Ht. cbn. auto.
Qed.

(** The join cell binds [zqsos] to the result of the join of the two
    [TARGETID] columns, when [qsos] indexes rows of [fm]. *)
Lemma join_cell_run (ns : JoinCell.Namespace) (targets : list JoinCell.fm_row) :
  JoinCell.take_rows (JoinCell.fm ns) (JoinCell.qsos ns) = Ok targets ->
  exists out,
    Join.zqsos (map JoinCell.zs_TARGETID (JoinCell.zs ns))
      (map JoinCell.fm_TARGETID targets) = Ok out
    /\ JoinCell.zqsos (fst (JoinCell.run ns)) = Some out
    /\ snd (JoinCell.run ns) = None.
Proof.
  intros Hrows. eexists. split; [apply zqsos_eq|].
  unfold JoinCell.run, JoinCell.on_dd.
  cbn [JoinCell.dd JoinCell.set_dd JoinCell.zs JoinCell.fm JoinCell.qsos].
  destruct (build_loop_indexes (map JoinCell.zs_TARGETID (JoinCell.zs ns)))
    as (d & -> & Hd).
  cbn [JoinCell.dd JoinCell.set_dd JoinCell.zs JoinCell.fm JoinCell.qsos].
  rewrite Hrows.
  destruct (comprehension_indexes _ (map JoinCell.fm_TARGETID targets) d Hd)
    as (d' & -> & _).
  cbn. auto.
Qed.


End FrameFacts.

(** * Further properties of the cells *)

(** ** Rows taken by an index array *)

Section TakeRowsFacts.
Import JoinCell.

Lemma take_rows_app {A} (table : list A) (rows1 rows2 : list nat) (out1 out2 : list A) :
  take_rows table rows1 = Ok out1 ->
  take_rows table rows2 = Ok out2 ->
  take_rows table (rows1 ++ rows2) = Ok (out1 ++ out2).
Proof.
  revert out1. induction rows1 as [|r rows1 IH]; intros out1 H1 H2; cbn in *.
  - injection H1 as <-. exact H2.
  - destruct (nth_error table r) as [x|]; [|discriminate].
    destruct (take_rows table rows1) as [xs|e]; [|discriminate].
    injection H1 as <-. now rewrite (IH xs eq_refl H2).
Qed.

Lemma take_rows_constant {A} (table : list A) (rows : list nat) (x : A) :
  (forall r, In r rows -> nth_error table r = Some x) ->
  take_rows table rows = Ok (repeat x (length rows)).
Proof.
  induction rows as [|r rows IH]; intros Hall; cbn; [reflexivity|].
  rewrite (Hall r (or_introl eq_refl)), IH; [reflexivity|].
  intros r' Hr'. apply Hall. now right.
Qed.

Lemma take_rows_in_range {A} (table : list A) (rows : list nat) :
  (forall r, In r rows -> r < length table) ->
  exists out, take_rows table rows = Ok out /\ length out = length rows.
Proof.
  induction rows as [|r rows IH]; intros Hall; cbn; [now exists []|].
  destruct (IH (fun r' Hr' => Hall r' (or_intror Hr'))) as (out & -> & Hlen).
  destruct (nth_error table r) as [x|] eqn:Hx.
  - exists (x :: out). cbn. now rewrite Hlen.
  - apply nth_error_None in Hx. specialize (Hall r (or_introl eq_refl)). lia.
Qed.

Lemma take_rows_in_range_length {A} (table : list A) (rows : list nat) (out : list A) :
  take_rows table rows = Ok out -> length rows = length out.
Proof.
  revert out. induction rows as [|r rows IH]; intros out Hrun; cbn in Hrun.
  - now injection Hrun as <-.
  - destruct (nth_error table r); [|discriminate].
    destruct (take_rows table rows) as [xs|]; [|discriminate].
    injection Hrun as <-. cbn. now rewrite (IH xs eq_refl).
Qed.

Lemma take_rows_nth {A} (table : list A) (rows : list nat) (out : list A) (k r : nat) :
  take_rows table rows = Ok out ->
  nth_error rows k = Some r ->
  exists x, nth_error out k = Some x /\ nth_error table r = Some x.
Proof.
  revert out k. induction rows as [|r0 rows IH]; intros out k Hrun Hk.
  - destruct k; discriminate Hk.
  - cbn in Hrun. destruct (nth_error table r0) as [x0|] eqn:Hx0; [|discriminate].
    destruct (take_rows table rows) as [xs|e]; [|discriminate].
    injection Hrun as <-. destruct k as [|k]; cbn in *.
    + injection Hk as <-. eauto.
    + eapply IH; eauto.
Qed.

End TakeRowsFacts.

(** ** What the join returns, seen from the tables *)

Section JoinRows.
Import DefaultDict Join JoinCell Targets.

Lemma matches_from_length start target fit :
  length (matches_from start target fit) = count_occ Z.eq_dec fit target.
Proof.
  revert start. induction fit as [|x fit IH]; intros start; cbn; [reflexivity|].
  destruct (Z.eqb_spec x target) as [->|Hne].
  - destruct (Z.eq_dec target target); [|congruence]. cbn. now rewrite IH.
  - destruct (Z.eq_dec x target); [congruence|]. apply IH.
Qed.

Lemma take_rows_matches target fit :
  take_rows fit (matches target fit)
  = Ok (repeat target (count_occ Z.eq_dec fit target)).
Proof.
  unfold matches. rewrite <- (matches_from_length 0).
  apply take_rows_constant. intros r Hr.
  apply matches_from_In in Hr as [_ Hr]. now rewrite Nat.sub_0_r in Hr.
Qed.

Lemma take_rows_flat_matches fit targets :
  take_rows fit (flat_map (fun item => matches item fit) targets)
  = Ok (flat_map (fun item => repeat item (count_occ Z.eq_dec fit item)) targets).
Proof.
  induction targets as [|item targets IH]; cbn [flat_map]; [reflexivity|].
  apply take_rows_app; [apply take_rows_matches|exact IH].
Qed.

Lemma flat_matches_length fit targets :
  length (flat_map (fun item => matches item fit) targets)
  = list_sum (map (count_occ Z.eq_dec fit) targets).
Proof.
  induction targets as [|item targets IH]; [reflexivity|].
  change (list_sum (map (count_occ Z.eq_dec fit) (item :: targets)))
    with (count_occ Z.eq_dec fit item
          + list_sum (map (count_occ Z.eq_dec fit) targets)).
  cbn [flat_map]. rewrite length_app, IH. unfold matches.
  now rewrite matches_from_length.
Qed.

Lemma matched_rows_carry_target_ids_aux (fit targets : list Z) :
  exists out,
    Join.zqsos fit targets = Ok out
    /\ matched_ids fit out
       = Ok (flat_map (fun item => repeat item (count_occ Z.eq_dec fit item))
               targets)
    /\ length out = list_sum (map (count_occ Z.eq_dec fit) targets).
Proof.
  eexists. split; [apply zqsos_eq|]. split.
  - apply take_rows_flat_matches.
  - apply flat_matches_length.
Qed.

(** X1.  Every entry of [zqsos] is a row of the redshift table, so
    [zs[zqsos]] never raises, and the ids it reads are the targets' ids
    in the targets' order, each repeated as often as it occurs in the
    redshift table (not at all if it does not occur).  The number of
    entries is the sum of these multiplicities. *)
Theorem matched_rows_carry_target_ids (fit targets : list Z) :
  exists out,
    Join.zqsos fit targets = Ok out
    /\ matched_ids fit out
       = Ok (flat_map (fun item => repeat item (count_occ Z.eq_dec fit item))
               targets)
    /\ length out = list_sum (map (count_occ Z.eq_dec fit) targets).
Proof. apply matched_rows_carry_target_ids_aux. Qed.

Lemma list_sum_ones {A} (f : A -> nat) (l : list A) :
  (forall x, In x l -> f x = 1) -> list_sum (map f l) = length l.
Proof.
  induction l as [|x l IH]; intros Hone; [reflexivity|].
  change (list_sum (map f (x :: l))) with (f x + list_sum (map f l)).
  rewrite (Hone x (or_introl eq_refl)), IH; [reflexivity|].
  intros y Hy. apply Hone. now right.
Qed.

Lemma flat_repeat_once fit targets :
  (forall item, In item targets -> count_occ Z.eq_dec fit item = 1) ->
  flat_map (fun item => repeat item (count_occ Z.eq_dec fit item)) targets
  = targets.
Proof.
  induction targets as [|item targets IH]; intros Honce; cbn [flat_map];
    [reflexivity|].
  rewrite (Honce item (or_introl eq_refl)). cbn. f_equal.
  apply IH. intros t Ht. apply Honce. now right.
Qed.

Lemma zqsos_lines_up_aux (fit targets : list Z) :
  (forall item, In item targets -> count_occ Z.eq_dec fit item = 1) ->
  exists out,
    Join.zqsos fit targets = Ok out
    /\ length out = length targets
    /\ matched_ids fit out = Ok targets
    /\ forall k row,
         nth_error out k = Some row ->
         nth_error fit row = nth_error targets k.
Proof.
  intros Honce.
  destruct (matched_rows_carry_target_ids_aux fit targets) as (out & Hrun & Hids & Hlen).
  exists out. rewrite (flat_repeat_once fit targets Honce) in Hids.
  split; [exact Hrun|]. split; [|split; [exact Hids|]].
  - rewrite Hlen. now apply list_sum_ones.
  - intros k row Hk.
    destruct (take_rows_nth fit out targets k row Hids Hk) as (x & -> & ->).
    reflexivity.
Qed.

(** X2.  When every target id occurs exactly once in the redshift table,
    [zqsos] lines up with the targets: it has one entry per target, and
    entry [k] is a row of the redshift table with the id of target [k],
    so [zs[zqsos]["TARGETID"]] equals [fm[qsos]["TARGETID"]]. *)
Theorem zqsos_lines_up_with_targets (fit targets : list Z) :
  (forall item, In item targets -> count_occ Z.eq_dec fit item = 1) ->
  exists out,
    Join.zqsos fit targets = Ok out
    /\ length out = length targets
    /\ matched_ids fit out = Ok targets
    /\ forall k row,
         nth_error out k = Some row ->
         nth_error fit row = nth_error targets k.
Proof. apply zqsos_lines_up_aux. Qed.

Lemma zqsos_lines_up_with_targets_witness :
  exists out,
    Join.zqsos [7; 5; 9]%Z [5; 7]%Z = Ok out
    /\ length out = length [5; 7]%Z
    /\ matched_ids [7; 5; 9]%Z out = Ok [5; 7]%Z
    /\ forall k row,
         nth_error out k = Some row ->
         nth_error [7; 5; 9]%Z row = nth_error [5; 7]%Z k.
Proof.
  apply (zqsos_lines_up_with_targets [7; 5; 9]%Z [5; 7]%Z).
  intros item [<-|[<-|[]]]; reflexivity.
Defined.

(** When a target is unmatched or matched twice the two lists drift
    apart: here entry 0 of [zqsos] belongs to target 1. *)
Lemma zqsos_drifts_after_unmatched_target :
  Join.zqsos [7; 5; 9]%Z [8; 7]%Z = Ok [0]
  /\ nth_error [7; 5; 9]%Z 0 <> nth_error [8; 7]%Z 0.
Proof. split; [reflexivity|discriminate]. Qed.

Lemma flat_repeat_unique fit targets :
  List.NoDup fit ->
  flat_map (fun item => repeat item (count_occ Z.eq_dec fit item)) targets
  = List.filter (fun item => existsb (Z.eqb item) fit) targets.
Proof.
  intros Hnodup. induction targets as [|item targets IH]; cbn [flat_map List.filter];
    [reflexivity|].
  rewrite IH. destruct (existsb (Z.eqb item) fit) eqn:Hex.
  - apply existsb_exists in Hex as (x & Hx & Heq). apply Z.eqb_eq in Heq. subst x.
    rewrite (proj1 (NoDup_count_occ' Z.eq_dec fit) Hnodup item Hx). reflexivity.
  - replace (count_occ Z.eq_dec fit item) with 0; [reflexivity|].
    symmetry. apply count_occ_not_In. intros Hin.
    assert (existsb (Z.eqb item) fit = true) as Habs; [|congruence].
    apply existsb_exists. exists item. split; [exact Hin|apply Z.eqb_refl].
Qed.

(** X3.  When the ids of the redshift table are pairwise distinct, the
    join keeps one row per matched target: [zs[zqsos]["TARGETID"]] is the
    list of the targets' ids with the unmatched ones removed, in the
    targets' order, and [zqsos] is no longer than the targets. *)
Theorem unique_fit_ids_give_one_row_per_match (fit targets : list Z) :
  List.NoDup fit ->
  exists out,
    Join.zqsos fit targets = Ok out
    /\ matched_ids fit out
       = Ok (List.filter (fun item => existsb (Z.eqb item) fit) targets)
    /\ length out <= length targets.
Proof.
  intros Hnodup.
  destruct (matched_rows_carry_target_ids_aux fit targets) as (out & Hrun & Hids & Hlen).
  exists out. rewrite (flat_repeat_unique fit targets Hnodup) in Hids.
  split; [exact Hrun|]. split; [exact Hids|].
  rewrite (take_rows_in_range_length _ _ _ Hids).
  apply List.filter_length_le.
Qed.

Lemma unique_fit_ids_give_one_row_per_match_witness :
  exists out,
    Join.zqsos [7; 5; 9]%Z [5; 8; 7]%Z = Ok out
    /\ matched_ids [7; 5; 9]%Z out
       = Ok (List.filter (fun item => existsb (Z.eqb item) [7; 5; 9]%Z) [5; 8; 7]%Z)
    /\ length out <= length [5; 8; 7]%Z.
Proof.
  apply (unique_fit_ids_give_one_row_per_match [7; 5; 9]%Z [5; 8; 7]%Z).
  repeat constructor; cbn; intuition discriminate.
Defined.

End JoinRows.

(** ** The dictionary the join leaves behind *)

Section JoinDictionary.
Import DefaultDict Join.

Lemma getitem_data key d :
  default_factory d = Some list_ ->
  exists d',
    getitem key d = Ok (default [] (data d !! key), d')
    /\ default_factory d' = Some list_
    /\ forall k,
         data d' !! k
         = if decide (k = key) then Some (default [] (data d !! key))
           else data d !! k.
Proof.
  intros Hf. unfold getitem. destruct (data d !! key) as [v|] eqn:Hk; cbn.
  - exists d. split; [reflexivity|]. split; [exact Hf|].
    intros k. destruct (decide (k = key)) as [->|]; [exact Hk|reflexivity].
  - rewrite Hf. eexists. split; [reflexivity|]. split; [reflexivity|].
    intros k. cbn. destruct (decide (k = key)) as [->|Hne].
    + apply lookup_insert_eq.
    + now rewrite lookup_insert_ne.
Qed.

Lemma comprehension_trace_data targets :
  forall d,
    default_factory d = Some list_ ->
    exists trace d',
      comprehension_trace targets d = Ok (trace, d')
      /\ default_factory d' = Some list_
      /\ forall k,
           data d' !! k
           = if decide (k ∈ targets) then Some (default [] (data d !! k))
             else data d !! k.
Proof.
  induction targets as [|item targets IH]; intros d Hf; cbn [comprehension_trace].
  - exists [], d. split; [reflexivity|]. split; [exact Hf|].
    intros k. destruct (decide (k ∈ [])) as [Hin|]; [|reflexivity].
    now apply elem_of_nil in Hin.
  - destruct (getitem_data item d Hf) as (d1 & Hg & Hf1 & Hd1).
    destruct (IH d1 Hf1) as (rest & d2 & Hrest & Hf2 & Hd2).
    unfold bind. rewrite Hg.
    rewrite (inner_loop_present item _ d1 (getitem_then_contains _ _ _ _ Hg)).
    rewrite Hrest. eexists _, d2. split; [reflexivity|]. split; [exact Hf2|].
    intros k. rewrite Hd2, !Hd1.
    destruct (decide (k ∈ item :: targets)) as [Hin|Hnin];
      destruct (decide (k ∈ targets)) as [Ht|Hnt];
      destruct (decide (k = item)) as [->|Hne];
      try reflexivity; exfalso.
    + apply elem_of_cons in Hin as [?|?]; contradiction.
    + apply Hnin, elem_of_cons. now left.
    + apply Hnin, elem_of_cons. now right.
    + apply Hnin, elem_of_cons. now left.
Qed.

(** X4.  After the cell, [dd] holds exactly the ids of the redshift
    table and the ids of the targets: an id of the redshift table maps to
    its rows, in increasing order; a target id that is not in the table
    was added by the comprehension and maps to the empty list; no other
    key is present. *)
Theorem dictionary_after_join (fit targets : list Z) :
  exists out d,
    cell fit targets = Ok (out, d)
    /\ forall k,
         data d !! k
         = match matches k fit with
           | [] => if decide (k ∈ targets) then Some [] else None
           | rows => Some rows
           end.
Proof.
  unfold cell, comprehension, bind.
  destruct (build_loop_data fit 0 new eq_refl) as (d0 & Hbuild & Hf0 & Hd0).
  unfold enumerate. rewrite Hbuild.
  destruct (comprehension_trace_data targets d0 Hf0) as (trace & d & -> & _ & Hd).
  eexists _, d. split; [reflexivity|].
  intros k. rewrite Hd, Hd0. unfold matches. cbn [data new].
  rewrite lookup_empty. cbn.
  destruct (matches_from 0 k fit); destruct (decide (k ∈ targets)); reflexivity.
Qed.

(** X5.  The keys a comprehension adds to [dd] do not change what a
    later comprehension reads: the standard-star comprehension run on
    the dictionary the quasar cell left behind returns what it returns
    on a dictionary built afresh, as the notebook does. *)
Theorem second_comprehension_can_reuse_dd (fit targets1 targets2 : list Z) :
  pyresult_map fst
    (bind (build_loop (enumerate fit))
       (fun _ => bind (comprehension targets1)
                   (fun _ => comprehension targets2)) new)
  = zqsos fit targets2.
Proof.
  rewrite zqsos_eq. unfold bind.
  destruct (build_loop_indexes fit) as (d & -> & Hd).
  destruct (comprehension_indexes fit targets1 d Hd) as (d1 & -> & Hd1).
  now destruct (comprehension_indexes fit targets2 d1 Hd1) as (d2 & -> & _).
Qed.

End JoinDictionary.

(** ** Selecting rows by a targeting mask *)

Section SelectionFacts.
Import NumpyIndex JoinCell Targets.

Lemma where_from_In start mask i :
  In i (where_from start mask)
  <-> start <= i /\ nth_error mask (i - start) = Some true.
Proof.
  revert start. induction mask as [|b mask IH]; intros start; cbn [where_from].
  - split; [intros []|]. intros [_ Hn]. destruct (i - start); discriminate.
  - assert (Hstep : In i (where_from (S start) mask)
                    <-> S start <= i /\ nth_error (b :: mask) (i - start) = Some true).
    { rewrite IH. split; intros [Hle Hn]; (split; [lia|]).
      - replace (i - start) with (S (i - S start)) by lia. exact Hn.
      - replace (i - start) with (S (i - S start)) in Hn by lia. exact Hn. }
    destruct b; cbn [In]; rewrite Hstep.
    + split.
      * intros [<-|[Hle Hn]]; [rewrite Nat.sub_diag; auto|split; [lia|exact Hn]].
      * intros [Hle Hn]. destruct (Nat.eq_dec start i) as [|Hd]; [auto|].
        right. split; [lia|exact Hn].
    + split; [intros [Hle Hn]; split; [lia|exact Hn]|].
      intros [Hle Hn]. split; [|exact Hn].
      destruct (Nat.eq_dec start i) as [<-|]; [|lia].
      rewrite Nat.sub_diag in Hn. discriminate Hn.
Qed.

Lemma where_from_sorted start mask : StronglySorted lt (where_from start mask).
Proof.
  revert start. induction mask as [|b mask IH]; intros start; cbn [where_from].
  - constructor.
  - destruct b; [|apply IH]. constructor; [apply IH|].
    apply List.Forall_forall. intros i Hi. apply where_from_In in Hi. lia.
Qed.

Lemma select_In column bits fm i :
  In i (select column bits fm)
  <-> exists row, nth_error fm i = Some row
                  /\ Z.land (column row) bits <> 0%Z.
Proof.
  unfold select, where_, nonzero, bitand. rewrite where_from_In, Nat.sub_0_r.
  rewrite !map_map, nth_error_map.
  destruct (nth_error fm i) as [row|]; cbn.
  - split.
    + intros [_ Hb]. exists row. split; [reflexivity|].
      injection Hb as Hb. apply negb_true_iff, Z.eqb_neq in Hb. exact Hb.
    + intros (row' & Hrow & Hb). injection Hrow as <-. split; [lia|].
      f_equal. now apply negb_true_iff, Z.eqb_neq.
  - split; [intros [_ Hb]; discriminate|intros (row & Hrow & _); discriminate].
Qed.

(** X6.  The rows selected by a targeting mask are listed in strictly
    increasing order; a row number is listed exactly when the row exists
    and its targeting column has a bit of the mask set; so every listed
    number is a row of the fibermap. *)
Theorem selected_rows_are_sorted_and_valid
    (column : fm_row -> Z) (bits : Z) (fm : list fm_row) :
  StronglySorted lt (select column bits fm)
  /\ (forall i, In i (select column bits fm)
                <-> exists row, nth_error fm i = Some row
                                /\ Z.land (column row) bits <> 0%Z)
  /\ (forall i, In i (select column bits fm) -> i < length fm).
Proof.
  split; [apply where_from_sorted|]. split; [apply select_In|].
  intros i Hi. apply select_In in Hi as (row & Hrow & _).
  apply nth_error_Some. congruence.
Qed.

Lemma select_take_rows column bits fm :
  exists targets,
    take_rows fm (select column bits fm) = Ok targets
    /\ length targets = length (select column bits fm).
Proof.
  apply take_rows_in_range. intros r Hr.
  apply select_In in Hr as (row & Hrow & _). apply nth_error_Some. congruence.
Qed.

(** X7.  With [qsos] computed from the fibermap by the mask, the join
    cell never raises: [fm[qsos]] is defined, and the cell binds [zqsos]
    to the join of the two [TARGETID] columns. *)
Theorem join_cell_after_selection_returns
    (column : fm_row -> Z) (bits : Z) (ns : Namespace) :
  exists targets out,
    take_rows (fm ns) (select column bits (fm ns)) = Ok targets
    /\ Join.zqsos (map zs_TARGETID (zs ns)) (map fm_TARGETID targets) = Ok out
    /\ zqsos (fst (run (select_cell column bits ns))) = Some out
    /\ snd (run (select_cell column bits ns)) = None.
Proof.
  destruct (select_take_rows column bits (fm ns)) as (targets & Htargets & _).
  destruct (join_cell_run (select_cell column bits ns) targets Htargets)
    as (out & Hjoin & Hbound & Hnone).
  exists targets, out. auto.
Qed.

Lemma count_nonzero_positive start mask :
  count_nonzero (where_from (S start) mask) = length (where_from (S start) mask).
Proof.
  unfold count_nonzero. f_equal. apply List.forallb_filter_id.
  apply forallb_forall. intros i Hi. apply where_from_In in Hi.
  destruct i; [lia|reflexivity].
Qed.

(** X8.  [np.count_nonzero(stds)] counts the row numbers that are not 0,
    not the rows: it is the number of selected rows, less one when row 0
    of the fibermap is selected. *)
Theorem count_nonzero_skips_row_zero
    (column : fm_row -> Z) (bits : Z) (fm : list fm_row) :
  num_stdstar_exposures (select column bits fm)
  = length (select column bits fm)
    - match fm with
      | row :: _ => if Z.eqb (Z.land (column row) bits) 0 then 0 else 1
      | [] => 0
      end.
Proof.
  unfold num_stdstar_exposures, select, where_, nonzero, bitand.
  destruct fm as [|row fm]; [reflexivity|]. cbn [map where_from].
  destruct (Z.eqb (Z.land (column row) bits) 0); cbn [negb].
  - rewrite count_nonzero_positive. lia.
  - change (count_nonzero (0 :: ?l)) with (count_nonzero l).
    unfold count_nonzero at 1. cbn [List.filter Nat.eqb negb].
    fold (count_nonzero (where_from 1
            (map (fun x => negb (Z.eqb x 0))
               (map (fun x => Z.land x bits) (map column fm))))).
    rewrite count_nonzero_positive. cbn [length]. lia.
Qed.

End SelectionFacts.

(** ** Counting rows per exposure, and finding a target *)

Section CountingFacts.
Import NumpyIndex Targets.

Lemma count_true_equals ids v :
  count_true (equals ids v) = count_occ Z.eq_dec ids v.
Proof.
  unfold count_true, equals. induction ids as [|x ids IH]; cbn; [reflexivity|].
  destruct (Z.eqb_spec x v) as [->|Hne].
  - destruct (Z.eq_dec v v); [|congruence]. cbn. now rewrite IH.
  - destruct (Z.eq_dec x v); [congruence|]. exact IH.
Qed.

Lemma list_sum_indicator (a : Z) (order : list Z) :
  List.NoDup order ->
  In a order ->
  list_sum (map (fun e => if Z.eq_dec a e then 1 else 0) order) = 1.
Proof.
  induction 1 as [|e order Hnotin Hnodup IH]; intros Hin; [destruct Hin|].
  change (list_sum (map ?f (e :: order))) with (f e + list_sum (map f order)).
  cbn beta. destruct (Z.eq_dec a e) as [->|Hne].
  - replace (list_sum _) with 0; [reflexivity|].
    symmetry. clear -Hnotin. induction order as [|x order IH]; [reflexivity|].
    change (list_sum (map ?f (x :: order))) with (f x + list_sum (map f order)).
    cbn beta. destruct (Z.eq_dec e x) as [->|_].
    + exfalso. apply Hnotin. now left.
    + rewrite IH; [reflexivity|]. intros Hin. apply Hnotin. now right.
  - destruct Hin as [->|Hin]; [congruence|]. now rewrite IH.
Qed.

Lemma list_sum_map_add {A} (f g : A -> nat) (l : list A) :
  list_sum (map (fun x => f x + g x) l) = list_sum (map f l) + list_sum (map g l).
Proof.
  induction l as [|x l IH]; [reflexivity|].
  change (list_sum (map ?h (x :: l))) with (h x + list_sum (map h l)).
  cbn beta. rewrite IH. lia.
Qed.

Lemma count_occ_sum (ids order : list Z) :
  List.NoDup order ->
  (forall e, In e ids -> In e order) ->
  list_sum (map (count_occ Z.eq_dec ids) order) = length ids.
Proof.
  intros Hnodup. induction ids as [|a ids IH]; intros Hcover.
  - cbn [count_occ length]. clear. induction order as [|e order IHo];
      [reflexivity|].
    change (list_sum (map ?f (e :: order))) with (f e + list_sum (map f order)).
    cbn beta. exact IHo.
  - rewrite (map_ext _ (fun e => (if Z.eq_dec a e then 1 else 0)
                                 + count_occ Z.eq_dec ids e)).
    + rewrite list_sum_map_add, list_sum_indicator, IH;
        [reflexivity
        |intros e He; apply Hcover; now right
        |exact Hnodup
        |apply Hcover; now left].
    + intros e. cbn [count_occ]. now destruct (Z.eq_dec a e).
Qed.

(** X9.  The loop over the exposures counts every fibermap row exactly
    once: whatever the order in which the set yields the exposure ids,
    as long as it yields each id of the column once, the printed counts
    add up to the number of rows. *)
Theorem rows_per_exposure_add_up (EXPID order : list Z) :
  List.NoDup order ->
  (forall expid, In expid EXPID -> In expid order) ->
  list_sum (map snd (targets_per_expid EXPID order)) = length EXPID.
Proof.
  intros Hnodup Hcover. unfold targets_per_expid. rewrite map_map. cbn [snd].
  rewrite (map_ext _ (count_occ Z.eq_dec EXPID)).
  - now apply count_occ_sum.
  - intros e. apply count_true_equals.
Qed.

Lemma rows_per_exposure_add_up_witness :
  list_sum (map snd (targets_per_expid [3; 4; 3; 3; 4]%Z [4; 3]%Z))
  = length [3; 4; 3; 3; 4]%Z.
Proof.
  apply (rows_per_exposure_add_up [3; 4; 3; 3; 4]%Z [4; 3]%Z).
  - repeat constructor; cbn; intuition discriminate.
  - cbn. intuition.
Defined.

Lemma where_equals_from start ids targetid :
  match where_from start (equals ids targetid) with
  | [] => ~ In targetid ids
  | i :: _ =>
      start <= i
      /\ nth_error ids (i - start) = Some targetid
      /\ forall j, j < i - start -> nth_error ids j <> Some targetid
  end.
Proof.
  revert start. induction ids as [|x ids IH]; intros start; cbn [equals map where_from].
  - intros [].
  - destruct (Z.eqb_spec x targetid) as [->|Hne].
    + split; [lia|]. rewrite Nat.sub_diag. split; [reflexivity|]. intros j Hj. lia.
    + specialize (IH (S start)). fold (equals ids targetid).
      destruct (where_from (S start) (equals ids targetid)) as [|i l].
      * intros [Heq|Hin]; [congruence|contradiction].
      * destruct IH as (Hle & Hat & Hbefore). split; [lia|].
        replace (i - start) with (S (i - S start)) by lia. split; [exact Hat|].
        intros [|j] Hj; cbn; [congruence|]. apply Hbefore. lia.
Qed.

(** X13.  [ispec] is the first row of the fibermap that carries the
    target's id; when no row carries it, taking element 0 of the empty
    result of [np.where] raises [IndexError]. *)
Theorem ispec_is_first_row_of_target (TARGETID : list Z) (targetid : Z) :
  match ispec TARGETID targetid with
  | Ok i =>
      nth_error TARGETID i = Some targetid
      /\ forall j, j < i -> nth_error TARGETID j <> Some targetid
  | Raise e => e = IndexError /\ ~ In targetid TARGETID
  end.
Proof.
  unfold ispec, where_, at_.
  pose proof (where_equals_from 0 TARGETID targetid) as Hfirst.
  destruct (where_from 0 (equals TARGETID targetid)) as [|i l]; cbn.
  - auto.
  - destruct Hfirst as (_ & Hat & Hbefore). rewrite Nat.sub_0_r in *. auto.
Qed.

End CountingFacts.

(** ** The quasar panels *)

Section PanelFacts.
Import NumpyIndex JoinCell Targets.

Lemma at_raises {A} (a : list A) (i : nat) (e : exn) :
  at_ a i = Raise e -> e = IndexError.
Proof. unfold at_. destruct (nth_error a i); [discriminate|congruence]. Qed.

Lemma panel_raises zs fm zqsos qsos qsoid i e :
  panel zs fm zqsos qsos qsoid i = Raise e -> e = IndexError.
Proof.
  unfold panel.
  repeat match goal with
         | |- context [match at_ ?a ?k with _ => _ end] =>
             let H := fresh "Hat" in
             destruct (at_ a k) eqn:H; [|apply at_raises in H; congruence]
         end.
  discriminate.
Qed.

Lemma for_rows_raises {A B} (body : A -> pyresult B) (l : list A) (x : A) (e : exn) :
  In x l ->
  body x = Raise e ->
  (forall x' e', body x' = Raise e' -> e' = e) ->
  for_rows body l = Raise e.
Proof.
  intros Hin Hx Hsame. induction l as [|x0 l IH]; [destruct Hin|].
  cbn [for_rows]. destruct (body x0) as [y|e0] eqn:H0.
  - destruct Hin as [->|Hin]; [congruence|]. now rewrite (IH Hin).
  - f_equal. eauto.
Qed.

Lemma for_rows_ok {A B} (body : A -> pyresult B) (P : B -> Prop) (l : list A) :
  (forall x, In x l -> exists y, body x = Ok y /\ P y) ->
  exists ys, for_rows body l = Ok ys /\ length ys = length l /\ Forall P ys.
Proof.
  induction l as [|x l IH]; intros Hall; cbn [for_rows].
  - exists []. repeat split. constructor.
  - destruct (Hall x (or_introl eq_refl)) as (y & -> & Hy).
    destruct (IH (fun x' Hx' => Hall x' (or_intror Hx'))) as (ys & -> & Hlen & Hys).
    exists (y :: ys). cbn. rewrite Hlen. repeat split. now constructor.
Qed.



Lemma take_rows_In {A} (table : list A) (rows : list nat) (out : list A) (x : A) :
  take_rows table rows = Ok out ->
  In x out ->
  exists r, In r rows /\ nth_error table r = Some x.
Proof.
  revert out. induction rows as [|r rows IH]; intros out Hrun Hin; cbn in Hrun.
  - injection Hrun as <-. destruct Hin.
  - destruct (nth_error table r) as [x0|] eqn:Hx0; [|discriminate].
    destruct (take_rows table rows) as [xs|]; [|discriminate].
    injection Hrun as <-. destruct Hin as [<-|Hin].
    + exists r. split; [now left|exact Hx0].
    + destruct (IH xs eq_refl Hin) as (r' & Hr' & Hx). exists r'. split; [now right|exact Hx].
Qed.

(** X15.  When every selected target occurs exactly once in the
    redshift table, the panels of the second notebook ([range(len(qsoid))[0:9]])
    are drawn without an exception, one per selected quasar up to nine,
    and each panel pairs a row of the redshift table that passes the
    selection with the fibermap row of the same [TARGETID]: the title
    and the spectrum belong to the same target. *)
Theorem panels_pair_rows_of_one_target
    (column : fm_row -> Z) (bits : Z) (sel : zs_row -> bool)
    (zs : list zs_row) (fm : list fm_row) :
  (forall i row,
      In i (select column bits fm) ->
      nth_error fm i = Some row ->
      count_occ Z.eq_dec (map zs_TARGETID zs) (fm_TARGETID row) = 1) ->
  exists targets zqsos qsoid rows,
    take_rows fm (select column bits fm) = Ok targets
    /\ Join.zqsos (map zs_TARGETID zs) (map fm_TARGETID targets) = Ok zqsos
    /\ qsoid_of sel zs zqsos = Ok qsoid
    /\ panels_sliced zs fm zqsos (select column bits fm) qsoid = Ok rows
    /\ length rows = Nat.min 9 (length qsoid)
    /\ Forall (fun p => zs_TARGETID (fst p) = fm_TARGETID (snd p)
                        /\ sel (fst p) = true) rows.
Proof.
  intros Honce.
  destruct (select_take_rows column bits fm) as (targets & Htargets & Hlen_targets).
  assert (Honce' : forall item, In item (map fm_TARGETID targets) ->
            count_occ Z.eq_dec (map zs_TARGETID zs) item = 1).
  { intros item Hitem. apply in_map_iff in Hitem as (row & <- & Hrow).
    destruct (take_rows_In _ _ _ _ Htargets Hrow) as (r & Hr & Hat). eauto. }
  destruct (zqsos_lines_up_aux _ _ Honce')
    as (out & Hjoin & Hlen_out & _ & Hpoint).
  rewrite length_map in Hlen_out.
  assert (Hvalid : forall r, In r out -> r < length zs).
  { intros r Hr. apply In_nth_error in Hr as (k & Hk).
    specialize (Hpoint k r Hk).
    assert (k < length out) as Hk' by (apply nth_error_Some; congruence).
    assert (nth_error (map fm_TARGETID targets) k <> None) as Hsome
      by (apply nth_error_Some; rewrite length_map; lia).
    rewrite <- Hpoint in Hsome. apply nth_error_Some in Hsome.
    now rewrite length_map in Hsome. }
  destruct (take_rows_in_range zs out Hvalid) as (zrows & Hzrows & Hlen_zrows).
  exists targets, out, (where_ (map sel zrows)).
  assert (Hpanels : forall i, In i (firstn 9 (seq 0 (length (where_ (map sel zrows))))) ->
            exists p, panel zs fm out (select column bits fm) (where_ (map sel zrows)) i = Ok p
                      /\ (zs_TARGETID (fst p) = fm_TARGETID (snd p)
                          /\ sel (fst p) = true)).
  { intros i Hi. apply In_nth_error in Hi as (pos & Hpos).
    assert (In i (seq 0 (length (where_ (map sel zrows))))) as Hi.
    { apply nth_error_In with pos. rewrite nth_error_firstn in Hpos.
      destruct (pos <? 9); [exact Hpos|discriminate]. }
    apply in_seq in Hi as [_ Hi]. cbn in Hi.
    destruct (nth_error (where_ (map sel zrows)) i) as [k|] eqn:Hk;
      [|apply nth_error_None in Hk; lia].
    assert (Hin : In k (where_ (map sel zrows))) by (eapply nth_error_In; eauto).
    apply where_from_In in Hin as [_ Hsel]. rewrite Nat.sub_0_r, nth_error_map in Hsel.
    destruct (nth_error zrows k) as [zrow|] eqn:Hzrow; [|discriminate].
    injection Hsel as Hsel.
    assert (k < length out) as Hk_out
      by (rewrite <- Hlen_zrows; apply nth_error_Some; congruence).
    destruct (nth_error out k) as [zi|] eqn:Hzi;
      [|apply nth_error_None in Hzi; lia].
    destruct (take_rows_nth zs out zrows k zi Hzrows Hzi) as (zrow' & Hz1 & Hz2).
    rewrite Hzrow in Hz1. injection Hz1 as <-.
    destruct (nth_error (select column bits fm) k) as [fi|] eqn:Hfi;
      [|apply nth_error_None in Hfi; lia].
    destruct (take_rows_nth fm _ targets k fi Htargets Hfi) as (frow & Hf1 & Hf2).
    exists (zrow, frow). unfold panel, at_. rewrite Hk, Hzi, Hz2, Hfi, Hf2.
    split; [reflexivity|]. cbn [fst snd]. split; [|exact Hsel].
    specialize (Hpoint k zi Hzi). rewrite !nth_error_map, Hz2, Hf1 in Hpoint.
    now injection Hpoint. }
  destruct (for_rows_ok _ _ _ Hpanels) as (rows & Hrows & Hlen_rows & Hall).
  exists rows. split; [exact Htargets|]. split; [exact Hjoin|].
  split; [unfold qsoid_of; now rewrite Hzrows|].
  split; [exact Hrows|]. split; [|exact Hall].
  rewrite Hlen_rows, length_firstn, length_seq. reflexivity.
Qed.

Lemma panels_pair_rows_of_one_target_witness :
  exists targets zqsos qsoid rows,
    take_rows SampleTables.fm3 (select fm_CMX_TARGET 4 SampleTables.fm3)
    = Ok targets
    /\ Join.zqsos (map zs_TARGETID SampleTables.zs3) (map fm_TARGETID targets)
       = Ok zqsos
    /\ qsoid_of is_qso_below_5 SampleTables.zs3 zqsos = Ok qsoid
    /\ panels_sliced SampleTables.zs3 SampleTables.fm3 zqsos
         (select fm_CMX_TARGET 4 SampleTables.fm3) qsoid = Ok rows
    /\ length rows = Nat.min 9 (length qsoid)
    /\ Forall (fun p => zs_TARGETID (fst p) = fm_TARGETID (snd p)
                        /\ is_qso_below_5 (fst p) = true) rows.
Proof.
  apply (panels_pair_rows_of_one_target fm_CMX_TARGET 4 is_qso_below_5
           SampleTables.zs3 SampleTables.fm3).
  intros i row Hi Hrow.
  change (In i [0; 2]) in Hi.
  destruct Hi as [<-|[<-|[]]]; cbn in Hrow; injection Hrow as <-; reflexivity.
Defined.

End PanelFacts.

(** ** Loading the templates and running the reconstruction cells *)

Section TemplateFacts.
Import Redrock Templates.

Section AnyElements.
Context {T : Type}.

Lemma load_onto_lookup_other (files : list (TemplateFile T))
    (start : gmap (string * string) (Template T)) (key : string * string) :
  (forall t, In t files -> key_of t <> key) ->
  fold_left (fun templates t => <[key_of t := loaded t]> templates) files start
    !! key
  = start !! key.
Proof.
  revert start. induction files as [|t files IH]; intros start Hother; cbn;
    [reflexivity|].
  rewrite IH by (intros t' Ht'; apply Hother; now right).
  apply lookup_insert_ne, Hother. now left.
Qed.

(** X10.  In the dictionary of templates a later file replaces an earlier
    one of the same type and sub-type: looking up the type of a file
    returns that file's template exactly when no file after it declares
    the same type and sub-type.  Here: the lookup returns the last such
    file. *)
Theorem last_template_file_wins
    (before after : list (TemplateFile T)) (t : TemplateFile T) :
  (forall t', In t' after ->
              (template_type t', sub_type t') <> (template_type t, sub_type t)) ->
  load_templates (before ++ t :: after) !! (template_type t, sub_type t)
  = Some (loaded t).
Proof.
  intros Hlast. unfold load_templates. rewrite fold_left_app. cbn [fold_left].
  rewrite (load_onto_lookup_other after _ (key_of t) Hlast).
  apply lookup_insert_eq.
Qed.

(** A type that no file declares is not a key of the dictionary. *)
Lemma undeclared_type_is_missing (files : list (TemplateFile T))
    (key : string * string) :
  (forall t, In t files -> key_of t <> key) ->
  load_templates files !! key = None.
Proof.
  intros Hnone. unfold load_templates.
  rewrite (load_onto_lookup_other files ∅ key Hnone). apply lookup_empty.
Qed.

End AnyElements.

Lemma last_template_file_wins_witness :
  load_templates SampleFits.files !! ("GALAXY", "")%string
  = Some Samples.two_basis.
Proof.
  apply (last_template_file_wins
           [mk_template_file "GALAXY" "" Samples.one_bin;
            mk_template_file "QSO" "" Samples.neighbours]
           [] (mk_template_file "GALAXY" "" Samples.two_basis)).
  intros t' [].
Defined.

Section Cells.
Context {T : Type} `{Dtype T}.

(** X11.  With fewer than two rows in the zbest table the first cell
    ends in [IndexError] at [zbest['Z'][i]]: [i = 1] is bound, nothing
    else is assigned, and the second cell is not reached. *)
Theorem reconstruction_needs_row_one (ns : Namespace T) :
  length (zbest ns) < 2 ->
  reconstruction_cells ns = (set_i 1 ns, Some IndexError).
Proof.
  intros Hshort.
  destruct ns as [tpl zb i z tid ft nc co tf tw]. cbn in Hshort.
  destruct zb as [|row0 [|row1 zb]]; cbn in Hshort; try lia; reflexivity.
Qed.



End Cells.

Lemma sample_files_galaxy :
  load_templates SampleFits.files !! (strip "GALAXY", strip "      ")
  = Some Samples.two_basis.
Proof. vm_compute. reflexivity. Qed.

Lemma reconstruction_needs_row_one_witness :
  reconstruction_cells (fresh SampleFits.files [])
  = (set_i 1 (fresh SampleFits.files []), Some IndexError).
Proof.
  apply (reconstruction_needs_row_one (fresh SampleFits.files [])). cbn. lia.
Defined.



End TemplateFacts.

(** ** Stripping fixed-width values *)

Section StripFacts.
Import Redrock.

Lemma list_ascii_of_string_app (s t : string) :
  list_ascii_of_string (s ++ t)%string
  = list_ascii_of_string s ++ list_ascii_of_string t.
Proof.
  induction s as [|c s IH]; [reflexivity|].
  change (list_ascii_of_string (String c (s ++ t))
          = c :: (list_ascii_of_string s ++ list_ascii_of_string t)).
  cbn [list_ascii_of_string]. now rewrite IH.
Qed.

Lemma lstrip_chars_spaces (pad l : list ascii) :
  forallb is_space pad = true -> lstrip_chars (pad ++ l) = lstrip_chars l.
Proof.
  induction pad as [|c pad IH]; intros Hpad; cbn in *; [reflexivity|].
  apply andb_prop in Hpad as [-> Hpad]. now apply IH.
Qed.

Lemma lstrip_chars_head (l : list ascii) :
  match lstrip_chars l with
  | c :: _ => is_space c = false
  | [] => True
  end.
Proof.
  induction l as [|c l IH]; cbn; [exact I|].
  destruct (is_space c) eqn:Hc; [exact IH|exact Hc].
Qed.

Lemma lstrip_chars_fixed (l : list ascii) :
  match l with
  | c :: _ => is_space c = false
  | [] => True
  end ->
  lstrip_chars l = l.
Proof. destruct l as [|c l]; intros Hc; cbn; [reflexivity|now rewrite Hc]. Qed.

Lemma lstrip_chars_last (l : list ascii) :
  match rev l with
  | c :: _ => is_space c = false
  | [] => True
  end ->
  match rev (lstrip_chars l) with
  | c :: _ => is_space c = false
  | [] => True
  end.
Proof.
  induction l as [|c l IH]; intros Hlast; cbn; [exact I|].
  destruct (is_space c) eqn:Hc; [|exact Hlast].
  apply IH. cbn in Hlast. destruct (rev l) as [|d r]; [exact I|exact Hlast].
Qed.



End StripFacts.

(** ** Paths and file names *)

Section PathFacts.
Import CheckEnv Paths.
#[local] Open Scope string_scope.

(** X17.  The cell that forms [basedir] raises [TypeError] exactly when
    one of the two variables is unset, the case for which [check_env]
    only prints a line; with both set it returns a path. *)
Theorem basedir_needs_both_variables (env : environ) (leaf : string) :
  match env !! "DESI_SPECTRO_REDUX", env !! "SPECPROD" with
  | Some _, Some _ => raises (basedir env leaf) = false
  | _, _ => basedir env leaf = Raise TypeError
  end.
Proof.
  unfold basedir, getenv.
  destruct (env !! "DESI_SPECTRO_REDUX") as [redux|];
    destruct (env !! "SPECPROD") as [prod|]; try reflexivity.
  unfold path_join.
  destruct (startswith_slash prod);
    [|destruct (String.eqb redux "" || endswith_slash redux)%bool];
    match goal with
    | |- context [startswith_slash leaf] => destruct (startswith_slash leaf)
    end; try reflexivity;
    match goal with
    | |- context [(?b1 || ?b2)%bool] => destruct (b1 || b2)%bool
    end; reflexivity.
Qed.

Lemma prefix_app (old s t : string) :
  String.prefix old s = true -> String.prefix old (s ++ t) = true.
Proof.
  revert s. induction old as [|a old IH]; intros s Hs;
    [now destruct (s ++ t)|].
  destruct s as [|b s]; [discriminate Hs|].
  change (String b s ++ t) with (String b (s ++ t)). cbn [String.prefix] in *.
  destruct (ascii_dec a b); [now apply IH|discriminate Hs].
Qed.

Lemma contains_app_l (old s t : string) :
  contains old (s ++ t) = false -> contains old s = false.
Proof.
  induction s as [|c s IH]; intros Hst.
  - destruct old as [|a old]; [|reflexivity].
    change ("" ++ t) with t in Hst. destruct t; discriminate Hst.
  - change (String c s ++ t) with (String c (s ++ t)) in Hst.
    cbn [contains] in *. apply orb_false_elim in Hst as [Hp Hrest].
    rewrite (IH Hrest), orb_false_r.
    destruct (String.prefix old (String c s)) eqn:Hpre; [|reflexivity].
    apply (prefix_app _ _ t) in Hpre.
    change (String c s ++ t) with (String c (s ++ t)) in Hpre. congruence.
Qed.

Lemma replace_from_absent (old new s : string) :
  contains old s = false -> replace_from old new 0 s = s.
Proof.
  induction s as [|c s IH]; intros Habs; [reflexivity|].
  cbn [contains] in Habs. apply orb_false_elim in Habs as [Hp Hrest].
  cbn [replace_from]. rewrite Hp. now rewrite (IH Hrest).
Qed.

Lemma replace_from_skip (old new s t : string) :
  replace_from old new (String.length s) (s ++ t) = replace_from old new 0 t.
Proof.
  induction s as [|c s IH]; [reflexivity|].
  change (String c s ++ t) with (String c (s ++ t)). cbn [String.length replace_from].
  exact IH.
Qed.

(** No occurrence of [coadd] starts inside [head] when [head] itself
    holds none, whatever follows: the word has no proper prefix that is
    also a suffix. *)
Lemma coadd_not_across (head rest : string) :
  head <> "" ->
  String.prefix "coadd" head = false ->
  String.prefix "coadd" (head ++ "coadd" ++ rest) = false.
Proof.
  intros Hne Hpre.
  destruct head as [|c1 head]; [congruence|]. clear Hne.
  repeat match goal with
         | H : String.prefix _ (String ?c ?h) = false |- _ =>
             cbn [String.prefix] in H |- *;
             change (String c h ++ ?t) with (String c (h ++ t));
             cbn [String.prefix];
             destruct (ascii_dec _ c) as [<-|]; [|reflexivity];
             destruct h as [|? ?];
             [first [reflexivity|discriminate H]|]
         end.
  discriminate Hpre.
Qed.

Lemma spectra_not_across (head rest : string) :
  head <> "" ->
  String.prefix "spectra-64-" head = false ->
  String.prefix "spectra-64-" (head ++ "spectra-64-" ++ rest) = false.
Proof.
  intros Hne Hpre.
  destruct head as [|c1 head]; [congruence|]. clear Hne.
  repeat match goal with
         | H : String.prefix _ (String ?c ?h) = false |- _ =>
             cbn [String.prefix] in H |- *;
             change (String c h ++ ?t) with (String c (h ++ t));
             cbn [String.prefix];
             destruct (ascii_dec _ c) as [<-|]; [|reflexivity];
             destruct h as [|? ?];
             [first [reflexivity|discriminate H]|]
         end.
  discriminate Hpre.
Qed.

Lemma replace_first (old new head rest : string) :
  old <> "" ->
  (forall h r, h <> "" -> String.prefix old h = false ->
               String.prefix old (h ++ old ++ r) = false) ->
  contains old head = false ->
  replace_from old new 0 (head ++ old ++ rest)
  = head ++ new ++ replace_from old new 0 rest.
Proof.
  intros Hold Hacross. induction head as [|c head IH]; intros Habs.
  - change ("" ++ old ++ rest) with (old ++ rest).
    change ("" ++ new ++ replace_from old new 0 rest)
      with (new ++ replace_from old new 0 rest).
    destruct old as [|a old]; [congruence|].
    change (String a old ++ rest) with (String a (old ++ rest)).
    cbn [replace_from].
    change (String a (old ++ rest)) with (String a old ++ rest).
    rewrite (prefix_app (String a old) (String a old) rest).
    + f_equal.
      replace (String.length (String a old) - 1) with (String.length old)
        by (cbn [String.length]; lia).
      apply replace_from_skip.
    + clear. induction (String a old) as [|b s IHs]; [reflexivity|].
      cbn [String.prefix]. now destruct (ascii_dec b b).
  - cbn [contains] in Habs. apply orb_false_elim in Habs as [Hp Hrest].
    change (String c head ++ old ++ rest) with (String c (head ++ old ++ rest)).
    cbn [replace_from].
    change (String c (head ++ old ++ rest)) with (String c head ++ old ++ rest).
    rewrite (Hacross (String c head) rest) by (congruence || exact Hp).
    now rewrite (IH Hrest).
Qed.

Lemma append_assoc' (a b c : string) : (a ++ b) ++ c = a ++ b ++ c.
Proof.
  induction a as [|x a IH]; [reflexivity|].
  change ((String x a ++ b) ++ c) with (String x ((a ++ b) ++ c)).
  now rewrite IH.
Qed.

Lemma zfilename_after (head rest : string) :
  contains "coadd" head = false ->
  contains "coadd" rest = false ->
  zfilename (head ++ "coadd" ++ rest) = head ++ "zbest" ++ rest.
Proof.
  intros Hhead Hrest. unfold zfilename, replace.
  rewrite (replace_first "coadd" "zbest" head rest);
    [|discriminate|exact coadd_not_across|exact Hhead].
  now rewrite (replace_from_absent _ _ rest Hrest).
Qed.

(** X16.  For a coadd file in a directory, [zfilename] is the zbest file
    of the same spectrograph, tile and date in the same directory,
    provided the word [coadd] occurs neither in the directory nor in the
    rest of the name; [str.replace] rewrites every occurrence, so a
    directory that holds the word is rewritten too. *)
Theorem zfilename_is_the_sibling_zbest_file
    (dirname spectrograph tile date : string) :
  contains "coadd" (dirname ++ "/") = false ->
  contains "coadd" (spectrograph ++ "-" ++ tile ++ "-" ++ date ++ ".fits") = false ->
  pyresult_map zfilename
    (path_join (Some dirname) (Some (coadd_name spectrograph tile date)))
  = path_join (Some dirname)
      (Some ("zbest-" ++ spectrograph ++ "-" ++ tile ++ "-" ++ date ++ ".fits")).
Proof.
  intros Hdir Hrest. unfold path_join, coadd_name.
  change (startswith_slash ("coadd-" ++ ?x)) with false.
  change (startswith_slash ("zbest-" ++ ?x)) with false. cbn iota.
  set (rest := spectrograph ++ "-" ++ tile ++ "-" ++ date ++ ".fits") in *.
  change ("coadd-" ++ rest) with ("coadd" ++ "-" ++ rest).
  change ("zbest-" ++ rest) with ("zbest" ++ "-" ++ rest).
  assert (Hrest' : contains "coadd" ("-" ++ rest) = false) by exact Hrest.
  destruct (String.eqb dirname "" || endswith_slash dirname)%bool;
    cbn [pyresult_map]; f_equal.
  - apply zfilename_after; [|exact Hrest'].
    now apply (contains_app_l _ _ "/").
  - change ("/" ++ "coadd" ++ "-" ++ rest) with ("/" ++ ("coadd" ++ "-" ++ rest)).
    rewrite <- (append_assoc' dirname "/" ("coadd" ++ "-" ++ rest)).
    rewrite zfilename_after by assumption.
    now rewrite append_assoc'.
Qed.

Lemma zfilename_is_the_sibling_zbest_file_witness :
  pyresult_map zfilename
    (path_join (Some "/redux/daily/tiles/70003/20200226")
       (Some (coadd_name "0" "70003" "20200226")))
  = path_join (Some "/redux/daily/tiles/70003/20200226")
      (Some ("zbest-" ++ "0" ++ "-" ++ "70003" ++ "-" ++ "20200226" ++ ".fits")).
Proof.
  apply (zfilename_is_the_sibling_zbest_file
           "/redux/daily/tiles/70003/20200226" "0" "70003" "20200226");
    reflexivity.
Defined.

(** A directory that holds the word is rewritten as well. *)
Lemma zfilename_rewrites_directories :
  zfilename "/data/coadd/70003/coadd-0-70003-20200226.fits"
  = "/data/zbest/70003/zbest-0-70003-20200226.fits".
Proof. reflexivity. Qed.

(** X20.  In the HEALPix layout the file name is found by its hyphen:
    when [spectra-64-] occurs only at the start of the file name (the
    directory [spectra-64/] does not count), [zfilename] is the path with
    that one occurrence turned into [zbest-64-]. *)
Theorem zfilename_healpix_changes_the_name_only (head rest : string) :
  contains "spectra-64-" head = false ->
  contains "spectra-64-" rest = false ->
  zfilename_healpix (head ++ "spectra-64-" ++ rest) = head ++ "zbest-64-" ++ rest.
Proof.
  intros Hhead Hrest. unfold zfilename_healpix, replace.
  rewrite (replace_first "spectra-64-" "zbest-64-" head rest);
    [|discriminate|exact spectra_not_across|exact Hhead].
  now rewrite (replace_from_absent _ _ rest Hrest).
Qed.

Lemma zfilename_healpix_changes_the_name_only_witness :
  zfilename_healpix ("/redux/mini/spectra-64/53/5302/" ++ "spectra-64-" ++ "5302.fits")
  = "/redux/mini/spectra-64/53/5302/" ++ "zbest-64-" ++ "5302.fits".
Proof.
  apply (zfilename_healpix_changes_the_name_only
           "/redux/mini/spectra-64/53/5302/" "5302.fits"); reflexivity.
Defined.

End PathFacts.

(** ** Counting standards, joining batches, shapes *)

Section MoreFacts.
Import NumpyIndex JoinCell Targets Numpy Redrock.

Lemma size_list_to_set_le (ids : list Z) :
  size (list_to_set ids : gset Z) <= length ids.
Proof.
  induction ids as [|x ids IH]; cbn [list_to_set length].
  - now rewrite size_empty.
  - rewrite size_union_alt, size_singleton.
    assert (size (list_to_set ids ∖ {[x]} : gset Z) <= size (list_to_set ids : gset Z))
      by (apply subseteq_size, subseteq_difference_l; reflexivity).
    lia.
Qed.

(** X21.  The number of standard stars is defined for every mask (the
    selected rows exist) and never exceeds the number of selected rows;
    it is the number of distinct ids among them. *)
Theorem standards_do_not_exceed_selected_rows
    (column : fm_row -> Z) (bits : Z) (fm : list fm_row) :
  exists n,
    num_standard_stars (map fm_TARGETID fm) (select column bits fm) = Ok n
    /\ n <= length (select column bits fm).
Proof.
  unfold num_standard_stars.
  destruct (take_rows_in_range (map fm_TARGETID fm) (select column bits fm))
    as (ids & -> & Hlen).
  - intros r Hr. rewrite length_map.
    apply select_In in Hr as (row & Hrow & _). apply nth_error_Some. congruence.
  - eexists. split; [reflexivity|]. rewrite <- Hlen. apply size_list_to_set_le.
Qed.

(** Since [np.count_nonzero(stds)] leaves row 0 out, the line
    ["{} exposures of {} standards"] can report fewer exposures than
    standards: here both rows are standards with ids of their own. *)
Lemma fewer_exposures_than_standards :
  num_stdstar_exposures
    (select fm_CMX_TARGET 1 [mk_fm_row 21 1 0 0; mk_fm_row 22 1 0 0]) = 1
  /\ num_standard_stars [21; 22]%Z
       (select fm_CMX_TARGET 1 [mk_fm_row 21 1 0 0; mk_fm_row 22 1 0 0]) = Ok 2.
Proof. split; vm_compute; reflexivity. Qed.

(** X22.  The join of two batches of targets is the join of the first
    followed by the join of the second. *)
Theorem join_of_batches (fit targets1 targets2 : list Z) :
  Join.zqsos fit (targets1 ++ targets2)
  = match Join.zqsos fit targets1, Join.zqsos fit targets2 with
    | Ok out1, Ok out2 => Ok (out1 ++ out2)
    | Raise e, _ => Raise e
    | _, Raise e => Raise e
    end.
Proof. rewrite !zqsos_eq. now rewrite flat_map_app. Qed.

(** X23.  When the reconstruction returns, the model flux has one entry
    per wavelength bin of the basis ([flux.shape[1]]) and the observed
    grid has as many entries as the rest-frame grid, whatever the
    element type. *)
Theorem reconstruction_shapes
    {T : Type} `{Dtype T} (t : Template T) (stored : list T) (z : T) :
  match reconstruct t stored z with
  | Ok (tflux, twave) =>
      length tflux = shape1 (flux t) /\ length twave = length (wave t)
  | Raise e => e = ValueError /\ length stored < ncoeff_of t
  end.
Proof.
  rewrite reconstruct_cases.
  destruct (Nat.ltb_spec (length stored) (ncoeff_of t)) as [Hlt|Hge].
  - auto.
  - unfold matvec_T, twave_of, times_scalar. rewrite !length_map, length_seq. auto.
Qed.

End MoreFacts.
